(** * CarbonCheck: the emissions and credit-award engine of [server/server.js]

    A shallow embedding of the Express/Mongoose backend and the properties
    of its footprint ledger, credit policy, wallet ledger, award
    orchestrator and admin summary.

    Modelling conventions.
    - A JavaScript number is an IEEE-754 binary64 value: [spec_float] with
      precision 53 and maximal exponent 1024, with the arithmetic and the
      comparisons of the standard library's [SpecFloat].
    - Credit amounts and wallet balances are sums of the integer literals
      5, 3, 1 and 2 starting from the schema default 0; a double holds such
      integers exactly below 2^53 and they are kept in [Z].
    - A request payload field is a JSON scalar ([value]); [VUndefined]
      stands for an absent key.  User identifiers and dates are strings
      when present, as in the Mongoose schemas.  Strings are sequences of
      code units below 256.
    - An object literal used as a lookup table is a finite map from strings
      to its own entries; the property names every object inherits from
      [Object.prototype] ([inheritedName]) are not vehicle types, diet
      types or user e-mail addresses, and a lookup under one of them is
      outside the tables of this model.
    - The values a number can take are the well-formed doubles
      ([isDouble]).
    - The collections are lists of documents in storage order.  Every
      database call succeeds: schema casting, validation failures and
      storage errors of Mongoose are outside the model, and so is the
      interleaving of concurrent requests.
    - [new Date()] is read from an explicit [clock] argument, and
      [process.env.ADMIN_EMAILS] from an explicit argument of
      [adminEmails].
    - [bcrypt.hash] and [bcrypt.compare] are parameters of the account
      routes, the salt that [hash] draws an argument of the signup. *)

From Stdlib Require Import ZArith List String Ascii Bool Lia.
From Stdlib Require Import Sorted Permutation.
From Stdlib Require Import Floats.SpecFloat.
Import ListNotations.

Local Open Scope string_scope.
Local Open Scope Z_scope.
Local Open Scope list_scope.

(* ================================================================== *)
(** * JavaScript numbers *)
(* ================================================================== *)

Module JsNumber.

Definition number : Type := spec_float.

Definition prec : Z := 53.
Definition emax : Z := 1024.

Definition NaN : number := S754_nan.
Definition Infinity : number := S754_infinity false.
Definition posZero : number := S754_zero false.

Definition add : number -> number -> number := SFadd prec emax.
Definition mul : number -> number -> number := SFmul prec emax.
Definition div : number -> number -> number := SFdiv prec emax.
Definition lt : number -> number -> bool := SFltb.
Definition le : number -> number -> bool := SFleb.

(** The double nearest to an integer (an integer literal of the source). *)
Definition ofZ (z : Z) : number := binary_normalize prec emax z 0 false.

(** The double nearest to [p / q], both positive: the value of a decimal
    literal such as [0.171], read as 171 / 1000. *)
Definition nearest (neg : bool) (p q : positive) : number :=
  SFdiv prec emax (S754_finite neg p 0) (S754_finite false q 0).

Definition isNaN (x : number) : bool :=
  match x with S754_nan => true | _ => false end.

Definition isFinite (x : number) : bool :=
  match x with S754_zero _ | S754_finite _ _ _ => true | _ => false end.

(** ToBoolean on a number: [0], [-0] and [NaN] are falsy. *)
Definition truthy (x : number) : bool :=
  match x with S754_zero _ | S754_nan => false | _ => true end.

(** [magnitudeGe m e k]: [m * 2^e >= k] for a mantissa and an exponent. *)
Definition magnitudeGe (m : positive) (e : Z) (k : Z) : bool :=
  if 0 <=? e then k <=? Zpos m * 2 ^ e else k * 2 ^ (- e) <=? Zpos m.

(** The integer nearest to [m * 2^e * scale], the larger one on a tie:
    the [n] of [Number.prototype.toFixed]. *)
Definition scaledNearest (m : positive) (e : Z) (scale : Z) : Z :=
  if 0 <=? e then Zpos m * 2 ^ e * scale
  else (2 * Zpos m * scale + 2 ^ (- e)) / (2 * 2 ^ (- e)).

(** [Number(x.toFixed(digits))]: [toFixed] rounds the magnitude to
    [digits] decimals (the text of [x] itself from 10^21 on), and
    [Number] reads the decimal text back as the nearest double. *)
Definition toFixedNumber (digits : Z) (x : number) : number :=
  match x with
  | S754_zero _ => posZero
  | S754_finite s m e =>
      if magnitudeGe m e (10 ^ 21) then x
      else match scaledNearest m e (10 ^ digits) with
           | Zpos n => nearest s n (Z.to_pos (10 ^ digits))
           | _ => S754_zero s
           end
  | _ => x
  end.

End JsNumber.

Import JsNumber.

(* ================================================================== *)
(** * JavaScript values of a JSON payload *)
(* ================================================================== *)

Inductive value : Type :=
| VUndefined
| VNull
| VBool (b : bool)
| VNum (n : number)
| VStr (s : string).

Module StringNumericLiteral.

(** WhiteSpace and LineTerminator code units below 256. *)
Definition isStrWhiteSpaceChar (c : ascii) : bool :=
  let n := Z.of_N (N_of_ascii c) in
  ((9 <=? n) && (n <=? 13)) || (n =? 32) || (n =? 160).

Fixpoint trimStart (cs : list ascii) : list ascii :=
  match cs with
  | c :: rest => if isStrWhiteSpaceChar c then trimStart rest else cs
  | [] => []
  end.

Definition trim (cs : list ascii) : list ascii :=
  rev (trimStart (rev (trimStart cs))).

Definition digitOf (radix : Z) (c : ascii) : option Z :=
  let n := Z.of_N (N_of_ascii c) in
  let v := if (48 <=? n) && (n <=? 57) then n - 48
           else if (97 <=? n) && (n <=? 122) then n - 87
           else if (65 <=? n) && (n <=? 90) then n - 55
           else radix in
  if v <? radix then Some v else None.

(** Reads the longest prefix of digits: the value accumulated on [acc],
    the number of digits read, and the rest of the text. *)
Fixpoint readDigits (radix : Z) (cs : list ascii) (acc count : Z)
  : Z * Z * list ascii :=
  match cs with
  | c :: rest =>
      match digitOf radix c with
      | Some d => readDigits radix rest (acc * radix + d) (count + 1)
      | None => (acc, count, cs)
      end
  | [] => (acc, count, [])
  end.

Definition readSign (cs : list ascii) : bool * list ascii :=
  match cs with
  | c :: rest =>
      if Ascii.eqb c "+"%char then (false, rest)
      else if Ascii.eqb c "-"%char then (true, rest)
      else (false, cs)
  | [] => (false, [])
  end.

(** The double nearest to [m * 10^e10], with the sign [neg]. *)
Definition decimalValue (neg : bool) (m e10 : Z) : number :=
  match m with
  | Zpos p =>
      if 0 <=? e10
      then binary_normalize prec emax (cond_Zopp neg (m * 10 ^ e10)) 0 false
      else nearest neg p (Z.to_pos (10 ^ (- e10)))
  | _ => S754_zero neg
  end.

Definition isExponentIndicator (c : ascii) : bool :=
  Ascii.eqb c "e"%char || Ascii.eqb c "E"%char.

(** StrUnsignedDecimalLiteral, after the optional sign. *)
Definition strUnsignedDecimalLiteral (neg : bool) (cs : list ascii) : number :=
  if String.eqb (string_of_list_ascii cs) "Infinity" then S754_infinity neg
  else
    let '(ip, ni, r1) := readDigits 10 cs 0 0 in
    let '(mant, nf, r2) :=
      match r1 with
      | c :: r => if Ascii.eqb c "."%char then readDigits 10 r ip 0 else (ip, 0, r1)
      | [] => (ip, 0, r1)
      end in
    if ni + nf =? 0 then NaN
    else
      match r2 with
      | [] => decimalValue neg mant (- nf)
      | c :: r3 =>
          if isExponentIndicator c then
            let '(eneg, r4) := readSign r3 in
            let '(ev, ne, r5) := readDigits 10 r4 0 0 in
            match r5 with
            | [] => if 0 <? ne
                    then decimalValue neg mant (cond_Zopp eneg ev - nf)
                    else NaN
            | _ :: _ => NaN
            end
          else NaN
      end.

(** NonDecimalIntegerLiteral, after its two-character prefix. *)
Definition nonDecimalIntegerLiteral (radix : Z) (cs : list ascii) : number :=
  match readDigits radix cs 0 0 with
  | (v, n, []) => if 0 <? n then ofZ v else NaN
  | _ => NaN
  end.

Definition radixOfPrefix (c : ascii) : option Z :=
  if Ascii.eqb c "x"%char || Ascii.eqb c "X"%char then Some 16
  else if Ascii.eqb c "o"%char || Ascii.eqb c "O"%char then Some 8
  else if Ascii.eqb c "b"%char || Ascii.eqb c "B"%char then Some 2
  else None.

(** The abstract operation StringToNumber of ECMAScript. *)
Definition StringToNumber (s : string) : number :=
  let cs := trim (list_ascii_of_string s) in
  let decimal :=
    let '(neg, r) := readSign cs in strUnsignedDecimalLiteral neg r in
  match cs with
  | [] => posZero
  | z :: p :: rest =>
      if Ascii.eqb z "0"%char then
        match radixOfPrefix p with
        | Some radix => nonDecimalIntegerLiteral radix rest
        | None => decimal
        end
      else decimal
  | _ => decimal
  end.

End StringNumericLiteral.

Import StringNumericLiteral.

(** ToNumber, what [Number(v)] and the arithmetic operators apply. *)
Definition ToNumber (v : value) : number :=
  match v with
  | VUndefined => NaN
  | VNull => posZero
  | VBool true => ofZ 1
  | VBool false => posZero
  | VNum n => n
  | VStr s => StringToNumber s
  end.

(** ToBoolean. *)
Definition ToBoolean (v : value) : bool :=
  match v with
  | VUndefined | VNull => false
  | VBool b => b
  | VNum n => truthy n
  | VStr s => negb (String.eqb s "")
  end.

(** [a || b]. *)
Definition jsOr (a b : value) : value := if ToBoolean a then a else b.

(** [typeof v === "number"]. *)
Definition isNumberValue (v : value) : bool :=
  match v with VNum _ => true | _ => false end.

(** ToBoolean on an optional string: absent and empty are falsy. *)
Definition present (s : option string) : bool :=
  match s with
  | Some t => negb (String.eqb t "")
  | None => false
  end.

(** The string of a present optional string. *)
Definition textOf (s : option string) : string :=
  match s with
  | Some t => t
  | None => ""
  end.

(* ================================================================== *)
(** * Emission factors and [deriveEmissions] *)
(* ================================================================== *)

Definition table : Type := list (string * number).

Definition VEHICLE_EMISSIONS : table :=
  [ ("car-petrol", nearest false 171 1000);
    ("car-diesel", nearest false 168 1000);
    ("car-electric", nearest false 53 1000);
    ("motorcycle", nearest false 103 1000);
    ("public-transport", nearest false 41 1000);
    ("bicycle", ofZ 0) ].

Definition DIET_EMISSIONS : table :=
  [ ("meat-heavy", nearest false 719 100);
    ("meat-moderate", nearest false 563 100);
    ("pescatarian", nearest false 391 100);
    ("vegetarian", nearest false 381 100);
    ("vegan", nearest false 289 100) ].

Definition ELECTRICITY_FACTOR : number := nearest false 475 1000.
Definition GAS_FACTOR : number := ofZ 2.


(** [t[k]]: the entry of a table under a property key; only a string can
    name one, and the result is [undefined] ([None]) for any other key.
    The table holds its own entries: the lookup of an [inheritedName] is
    not described by it. *)
Definition tableGet (t : table) (k : value) : option number :=
  match k with
  | VStr s =>
      match find (fun e => String.eqb (fst e) s) t with
      | Some e => Some (snd e)
      | None => None
      end
  | _ => None
  end.

(** [x || d] for a table entry [x] and a number [d]. *)
Definition orNumber (x : option number) (d : number) : number :=
  match x with
  | Some n => if truthy n then n else d
  | None => d
  end.

(** The request payload of the footprint routes, [{ ...req.body }]. *)
Module Body.
Record t : Type := mk {
  user : option string;
  date : option string;
  vehicle_type : value;
  distance_daily : value;
  diet_type : value;
  electricity_usage : value;
  gas_usage : value;
  total_score : value;
  travel_emissions : value;
  food_emissions : value;
  energy_emissions : value
}.

Definition empty : t :=
  mk None None VUndefined VUndefined VUndefined VUndefined VUndefined
     VUndefined VUndefined VUndefined VUndefined.

Definition set_date (d : option string) (b : t) : t :=
  mk (user b) d (vehicle_type b) (distance_daily b) (diet_type b)
     (electricity_usage b) (gas_usage b) (total_score b)
     (travel_emissions b) (food_emissions b) (energy_emissions b).

Definition set_total_score (v : value) (b : t) : t :=
  mk (user b) (date b) (vehicle_type b) (distance_daily b) (diet_type b)
     (electricity_usage b) (gas_usage b) v
     (travel_emissions b) (food_emissions b) (energy_emissions b).

Definition set_travel_emissions (v : value) (b : t) : t :=
  mk (user b) (date b) (vehicle_type b) (distance_daily b) (diet_type b)
     (electricity_usage b) (gas_usage b) (total_score b)
     v (food_emissions b) (energy_emissions b).

Definition set_food_emissions (v : value) (b : t) : t :=
  mk (user b) (date b) (vehicle_type b) (distance_daily b) (diet_type b)
     (electricity_usage b) (gas_usage b) (total_score b)
     (travel_emissions b) v (energy_emissions b).

Definition set_energy_emissions (v : value) (b : t) : t :=
  mk (user b) (date b) (vehicle_type b) (distance_daily b) (diet_type b)
     (electricity_usage b) (gas_usage b) (total_score b)
     (travel_emissions b) (food_emissions b) v.
End Body.

Record emissions : Type := {
  travel : number;
  food : number;
  energy : number;
  total : number
}.

Definition zero : value := VNum (ofZ 0).
Definition thirty : number := ofZ 30.

Definition deriveEmissions (payload : Body.t) : emissions :=
  let travel :=
    mul (orNumber (tableGet VEHICLE_EMISSIONS (Body.vehicle_type payload)) (ofZ 0))
        (ToNumber (jsOr (Body.distance_daily payload) zero)) in
  let food := orNumber (tableGet DIET_EMISSIONS (Body.diet_type payload)) (ofZ 0) in
  let dailyElectricity :=
    div (ToNumber (jsOr (Body.electricity_usage payload) zero)) thirty in
  let dailyGas := div (ToNumber (jsOr (Body.gas_usage payload) zero)) thirty in
  let energy :=
    add (mul dailyElectricity ELECTRICITY_FACTOR) (mul dailyGas GAS_FACTOR) in
  let total := add (add travel food) energy in
  {| travel := travel; food := food; energy := energy; total := total |}.

(* ================================================================== *)
(** * Documents and the store *)
(* ================================================================== *)

Module Footprint.
Record doc : Type := mk {
  _id : nat;
  user : string;
  date : string;
  vehicle_type : value;
  distance_daily : value;
  diet_type : value;
  electricity_usage : value;
  gas_usage : value;
  total_score : value;
  travel_emissions : value;
  food_emissions : value;
  energy_emissions : value
}.
End Footprint.

Module Wallet.
Record doc : Type := mk {
  user : string;
  credits : Z;
  lastUpdated : Z
}.
End Wallet.

Inductive transactionType : Type := earn | bonus.

(** The text of a score: [value.toFixed(1)], or ["n/a"]. *)
Inductive scoreText : Type :=
| Fixed1 (n : number)
| NotAvailable.

(** The reason templates of a transaction, with their arguments. *)
Inductive reasonText : Type :=
| DailyFootprint (dateLabel : string) (score : scoreText)
| ImprovedScore (previous : scoreText).

Module CreditTransaction.
Record doc : Type := mk {
  user : string;
  amount : Z;
  type : transactionType;
  reason : reasonText;
  date : Z
}.
End CreditTransaction.

Record store : Type := {
  footprints : list Footprint.doc;
  wallets : list Wallet.doc;
  transactions : list CreditTransaction.doc;
  nextId : nat
}.

Definition emptyStore : store :=
  {| footprints := []; wallets := []; transactions := []; nextId := 0 |}.

(** What [new Date()] gives a request: the instant in milliseconds, its
    UTC day [toISOString().split("T")[0]], and the local midnights around
    it. *)
Record clock : Type := {
  time : Z;
  isoDate : string;
  midnight : Z;
  nextMidnight : Z
}.

(* ================================================================== *)
(** * Asynchronous code: state and exceptions *)
(* ================================================================== *)

Inductive exn : Type := Error (message : string).

Definition messageOf (e : exn) : string := let 'Error m := e in m.

(** A computation reads and writes the store and may throw; what it wrote
    before throwing stays written. *)
Definition M (A : Type) : Type := store -> (exn + A) * store.

Definition ret {A} (a : A) : M A := fun s => (inr a, s).

Definition bind {A B} (m : M A) (k : A -> M B) : M B :=
  fun s =>
    match m s with
    | (inl e, s') => (inl e, s')
    | (inr a, s') => k a s'
    end.

Definition throw {A} (e : exn) : M A := fun s => (inl e, s).

Definition tryCatch {A} (m : M A) (handler : exn -> M A) : M A :=
  fun s =>
    match m s with
    | (inl e, s') => handler e s'
    | (inr a, s') => (inr a, s')
    end.

Definition gets {A} (f : store -> A) : M A := fun s => (inr (f s), s).

Definition modify (f : store -> store) : M unit := fun s => (inr tt, f s).

Notation "x <- m ;; k" := (bind m (fun x => k))
  (at level 61, m at next level, right associativity).
Notation "m ;;; k" := (bind m (fun _ => k))
  (at level 61, right associativity).

(* ================================================================== *)
(** * Wallet ledger and credit policy *)
(* ================================================================== *)

(** [Wallet.findOne({ user })]. *)
Definition findWallet (user : string) (ws : list Wallet.doc) : option Wallet.doc :=
  find (fun w => String.eqb (Wallet.user w) user) ws.

(** [wallet.save()]: the stored document of that wallet is replaced. *)
Fixpoint saveWallet (w : Wallet.doc) (ws : list Wallet.doc) : list Wallet.doc :=
  match ws with
  | [] => []
  | x :: rest =>
      if String.eqb (Wallet.user x) (Wallet.user w) then w :: rest
      else x :: saveWallet w rest
  end.

Definition setWallets (ws : list Wallet.doc) (s : store) : store :=
  {| footprints := footprints s; wallets := ws;
     transactions := transactions s; nextId := nextId s |}.

Definition setTransactions (ts : list CreditTransaction.doc) (s : store) : store :=
  {| footprints := footprints s; wallets := wallets s;
     transactions := ts; nextId := nextId s |}.

Definition setFootprints (fs : list Footprint.doc) (n : nat) (s : store) : store :=
  {| footprints := fs; wallets := wallets s;
     transactions := transactions s; nextId := n |}.

Definition ensureWallet (user : option string) (now : clock) : M Wallet.doc :=
  if negb (present user) then
    throw (Error "User email is required for wallet operations.")
  else
    found <- gets (fun s => findWallet (textOf user) (wallets s)) ;;
    match found with
    | Some wallet => ret wallet
    | None =>
        let wallet := Wallet.mk (textOf user) 0 (time now) in
        modify (fun s => setWallets (wallets s ++ [wallet]) s) ;;;
        ret wallet
    end.

Definition ten : number := ofZ 10.
Definition twenty : number := ofZ 20.

Definition baseCreditsForScore (score : number) : Z :=
  if lt score ten then 5
  else if le score twenty then 3
  else 1.

(** The later of two candidates for [sort({ date: -1 })]; the earlier
    stored one on equal dates. *)
Definition laterOf (best : option Footprint.doc) (f : Footprint.doc)
  : option Footprint.doc :=
  match best with
  | None => Some f
  | Some b => if String.ltb (Footprint.date b) (Footprint.date f) then Some f else Some b
  end.

(** [Footprint.findOne({ user, date: { $lt: currentDate } }).sort({ date: -1 })]. *)
Definition findPrevious (user currentDate : string) (fs : list Footprint.doc)
  : option Footprint.doc :=
  fold_left laterOf
    (filter (fun f => String.eqb (Footprint.user f) user
                      && String.ltb (Footprint.date f) currentDate) fs)
    None.

Definition getPreviousScore (user currentDate : string) : M (option number) :=
  prev <- gets (fun s => findPrevious user currentDate (footprints s)) ;;
  ret match prev with
      | Some p =>
          match Footprint.total_score p with
          | VNum n => Some n
          | _ => None
          end
      | None => None
      end.

(** [date || new Date().toISOString().split("T")[0]]. *)
Definition dateOrToday (date : option string) (now : clock) : string :=
  match date with
  | Some d => if String.eqb d "" then isoDate now else d
  | None => isoDate now
  end.

Definition formatScore (v : option number) : scoreText :=
  match v with
  | Some n => Fixed1 n
  | None => NotAvailable
  end.

(** The bonus of an award:
    [previousScore !== null && numericScore < previousScore ? 2 : 0]. *)
Definition bonusCreditsFor (numericScore : number) (previousScore : option number) : Z :=
  match previousScore with
  | Some p => if lt numericScore p then 2 else 0
  | None => 0
  end.

Record creditSummary : Type := {
  baseCredits : Z;
  bonusCredits : Z;
  totalAwarded : Z;
  wallet : Wallet.doc;
  awarded : list CreditTransaction.doc
}.

Definition insertMany (ts : list CreditTransaction.doc)
  : M (list CreditTransaction.doc) :=
  modify (fun s => setTransactions (transactions s ++ ts) s) ;;;
  ret ts.

Definition awardCreditsForFootprint
    (user : option string) (score : value) (footprintDate : option string)
    (now : clock) : M creditSummary :=
  let numericScore := ToNumber score in
  if negb (present user) || isNaN numericScore then
    throw (Error "Valid user and score are required to award credits.")
  else
    let u := textOf user in
    let dateLabel := dateOrToday footprintDate now in
    let baseCredits := baseCreditsForScore numericScore in
    previousScore <- getPreviousScore u dateLabel ;;
    let bonusCredits := bonusCreditsFor numericScore previousScore in
    let transactionsToPersist :=
      CreditTransaction.mk u baseCredits earn
        (DailyFootprint dateLabel (Fixed1 numericScore)) (time now)
      :: (if 0 <? bonusCredits
          then [CreditTransaction.mk u bonusCredits bonus
                  (ImprovedScore (formatScore previousScore)) (time now)]
          else []) in
    persisted <- insertMany transactionsToPersist ;;
    w <- ensureWallet user now ;;
    let w' := Wallet.mk (Wallet.user w)
                (Wallet.credits w + (baseCredits + bonusCredits)) (time now) in
    modify (fun s => setWallets (saveWallet w' (wallets s)) s) ;;;
    ret {| baseCredits := baseCredits;
           bonusCredits := bonusCredits;
           totalAwarded := baseCredits + bonusCredits;
           wallet := w';
           awarded := persisted |}.

(* ================================================================== *)
(** * Footprint ledger *)
(* ================================================================== *)

(** An entry of the [$group] stage: [{ _id, averageScore, entries }];
    [$avg] gives a number, or [null] ([None]) for a group without one. *)
Module Average.
Record t : Type := mk {
  _id : string;
  averageScore : option number;
  entries : Z
}.
End Average.

Module Employee.
Record t : Type := mk {
  user : string;
  credits : Z;
  lastUpdated : option Z;
  averageScore : option number;
  entries : Z
}.
End Employee.

Record adminSummary : Type := {
  totalEmployees : Z;
  totalCredits : Z;
  organizationAverage : number;
  employees : list Employee.t;
  ranking : list (Employee.t * Z)
}.

(** What a route answers: [res.status(code).json(...)], status 200 when the
    source sets none. *)
Inductive response : Type :=
| Message (status : Z) (message : string)
| Failure (status : Z) (message : string) (error : string)
| FootprintSaved (credits : option creditSummary)
| FootprintUpdated (entry : Footprint.doc)
| FootprintList (data : list Footprint.doc)
| CreditsAwarded (summary : creditSummary)
| WalletView (wallet : Wallet.doc) (todayCredits : Z)
             (recentTransactions : list CreditTransaction.doc)
| AdminView (summary : adminSummary).

Definition statusOf (r : response) : Z :=
  match r with
  | Message status _ | Failure status _ _ => status
  | _ => 200
  end.

(** [Footprint.findOne({ user, date })]. *)
Definition findFootprint (user date : string) (fs : list Footprint.doc)
  : option Footprint.doc :=
  find (fun f => String.eqb (Footprint.user f) user
                 && String.eqb (Footprint.date f) date) fs.

(** [new Footprint(body)] with a fresh identifier. *)
Definition newFootprint (id : nat) (user date : string) (body : Body.t)
  : Footprint.doc :=
  Footprint.mk id user date
    (Body.vehicle_type body) (Body.distance_daily body) (Body.diet_type body)
    (Body.electricity_usage body) (Body.gas_usage body) (Body.total_score body)
    (Body.travel_emissions body) (Body.food_emissions body)
    (Body.energy_emissions body).

(** [if (typeof field !== "number") field = Number(x.toFixed(2))]. *)
Definition backfill (field : value) (x : number) : value :=
  if isNumberValue field then field else VNum (toFixedNumber 2 x).

Definition backfillEmissions (body : Body.t) : Body.t :=
  let e := deriveEmissions body in
  let body := Body.set_travel_emissions
                (backfill (Body.travel_emissions body) (travel e)) body in
  let body := Body.set_food_emissions
                (backfill (Body.food_emissions body) (food e)) body in
  let body := Body.set_energy_emissions
                (backfill (Body.energy_emissions body) (energy e)) body in
  Body.set_total_score (backfill (Body.total_score body) (total e)) body.

(** [app.post("/api/footprints", ...)] *)
Definition post_api_footprints (reqBody : Body.t) (now : clock) : M response :=
  tryCatch
    (if negb (present (Body.user reqBody)) then
       ret (Message 400 "User email is required")
     else
       let user := textOf (Body.user reqBody) in
       let date := dateOrToday (Body.date reqBody) now in
       let body := Body.set_date (Some date) reqBody in
       alreadySubmitted <- gets (fun s => findFootprint user date (footprints s)) ;;
       match alreadySubmitted with
       | Some _ =>
           ret (Message 409 "You already submitted a footprint for this date.")
       | None =>
           let body := backfillEmissions body in
           modify (fun s =>
             setFootprints
               (footprints s ++ [newFootprint (nextId s) user date body])
               (S (nextId s)) s) ;;;
           creditSummary <-
             (if present (Body.user body)
                 && isNumberValue (Body.total_score body)
              then
                summary <- awardCreditsForFootprint
                             (Body.user body) (Body.total_score body)
                             (Body.date body) now ;;
                ret (Some summary)
              else ret None) ;;
           ret (FootprintSaved creditSummary)
       end)
    (fun error =>
       ret (Failure 500 "Error saving footprint" (messageOf error))).

(** A field of a document under [findByIdAndUpdate]: a key of the update
    replaces the stored value, an absent key leaves it. *)
Definition overlay (stored update : value) : value :=
  match update with
  | VUndefined => stored
  | _ => update
  end.

Definition overlayString (stored : string) (update : option string) : string :=
  match update with
  | Some s => s
  | None => stored
  end.

Definition applyUpdates (d : Footprint.doc) (updates : Body.t) : Footprint.doc :=
  Footprint.mk (Footprint._id d)
    (overlayString (Footprint.user d) (Body.user updates))
    (overlayString (Footprint.date d) (Body.date updates))
    (overlay (Footprint.vehicle_type d) (Body.vehicle_type updates))
    (overlay (Footprint.distance_daily d) (Body.distance_daily updates))
    (overlay (Footprint.diet_type d) (Body.diet_type updates))
    (overlay (Footprint.electricity_usage d) (Body.electricity_usage updates))
    (overlay (Footprint.gas_usage d) (Body.gas_usage updates))
    (overlay (Footprint.total_score d) (Body.total_score updates))
    (overlay (Footprint.travel_emissions d) (Body.travel_emissions updates))
    (overlay (Footprint.food_emissions d) (Body.food_emissions updates))
    (overlay (Footprint.energy_emissions d) (Body.energy_emissions updates)).

Definition findById (id : nat) (fs : list Footprint.doc) : option Footprint.doc :=
  find (fun f => Nat.eqb (Footprint._id f) id) fs.

Fixpoint replaceById (d : Footprint.doc) (fs : list Footprint.doc)
  : list Footprint.doc :=
  match fs with
  | [] => []
  | f :: rest =>
      if Nat.eqb (Footprint._id f) (Footprint._id d) then d :: rest
      else f :: replaceById d rest
  end.

(** [Footprint.findByIdAndUpdate(id, updates, { new: true })]. *)
Definition findByIdAndUpdate (id : nat) (updates : Body.t)
  : M (option Footprint.doc) :=
  found <- gets (fun s => findById id (footprints s)) ;;
  match found with
  | Some d =>
      let d' := applyUpdates d updates in
      modify (fun s => setFootprints (replaceById d' (footprints s)) (nextId s) s) ;;;
      ret (Some d')
  | None => ret None
  end.

(** [if (Number.isFinite(x)) field = Number(x.toFixed(2))]. *)
Definition recomputed (field : value) (x : number) : value :=
  if isFinite x then VNum (toFixedNumber 2 x) else field.

Definition recomputeEmissions (updates : Body.t) : Body.t :=
  let e := deriveEmissions updates in
  let updates := Body.set_travel_emissions
                   (recomputed (Body.travel_emissions updates) (travel e)) updates in
  let updates := Body.set_food_emissions
                   (recomputed (Body.food_emissions updates) (food e)) updates in
  let updates := Body.set_energy_emissions
                   (recomputed (Body.energy_emissions updates) (energy e)) updates in
  Body.set_total_score (recomputed (Body.total_score updates) (total e)) updates.

(** [app.put("/api/footprints/:id", ...)] *)
Definition put_api_footprints (id : nat) (reqBody : Body.t) : M response :=
  tryCatch
    (let updates := recomputeEmissions reqBody in
     updated <- findByIdAndUpdate id updates ;;
     match updated with
     | None => ret (Message 404 "Footprint not found")
     | Some entry => ret (FootprintUpdated entry)
     end)
    (fun _ => ret (Message 500 "Error updating footprint")).

(** [app.delete("/api/footprints/:id", ...)] *)
Definition delete_api_footprints (id : nat) : M response :=
  tryCatch
    (modify (fun s =>
       setFootprints
         (filter (fun f => negb (Nat.eqb (Footprint._id f) id)) (footprints s))
         (nextId s) s) ;;;
     ret (Message 200 "Footprint deleted successfully"))
    (fun _ => ret (Message 500 "Error deleting footprint")).

(** [app.get("/api/footprints", ...)] *)
Definition get_api_footprints (user : option string) : M response :=
  tryCatch
    (data <- gets (fun s =>
       match user with
       | Some u =>
           if String.eqb u "" then footprints s
           else filter (fun f => String.eqb (Footprint.user f) u) (footprints s)
       | None => footprints s
       end) ;;
     ret (FootprintList data))
    (fun _ => ret (Message 500 "Error fetching footprints")).

(* ================================================================== *)
(** * Credit routes *)
(* ================================================================== *)

(** The payload of the manual award, [{ user, score, date } = req.body]. *)
Record earnBody : Type := {
  earnUser : option string;
  earnScore : value;
  earnDate : option string
}.

(** [app.post("/api/credits/earn", ...)] *)
Definition post_api_credits_earn (reqBody : earnBody) (now : clock) : M response :=
  tryCatch
    (if negb (present (earnUser reqBody)) || negb (isNumberValue (earnScore reqBody))
     then ret (Message 400 "User email and numeric score are required")
     else
       creditSummary <- awardCreditsForFootprint
                          (earnUser reqBody) (earnScore reqBody)
                          (earnDate reqBody) now ;;
       ret (CreditsAwarded creditSummary))
    (fun error =>
       ret (Failure 500 "Failed to award credits" (messageOf error))).

(** Stable insertion for [sort({ date: -1 })]: most recent first. *)
Fixpoint insertByDate (t : CreditTransaction.doc) (sorted : list CreditTransaction.doc)
  : list CreditTransaction.doc :=
  match sorted with
  | [] => [t]
  | x :: rest =>
      if CreditTransaction.date t <? CreditTransaction.date x
      then x :: insertByDate t rest
      else t :: sorted
  end.

Definition sortByDateDesc (ts : list CreditTransaction.doc)
  : list CreditTransaction.doc :=
  fold_right insertByDate [] ts.

Definition sumAmounts (ts : list CreditTransaction.doc) : Z :=
  fold_left (fun sum txn => sum + CreditTransaction.amount txn) ts 0.

(** [app.get("/api/credits/wallet/:user", ...)] *)
Definition get_api_credits_wallet (user : string) (now : clock) : M response :=
  tryCatch
    (w <- ensureWallet (Some user) now ;;
     todayTransactions <- gets (fun s =>
       filter (fun t => String.eqb (CreditTransaction.user t) user
                        && (midnight now <=? CreditTransaction.date t)
                        && (CreditTransaction.date t <? nextMidnight now))
              (transactions s)) ;;
     recentTransactions <- gets (fun s =>
       firstn 10 (sortByDateDesc
                    (filter (fun t => String.eqb (CreditTransaction.user t) user)
                            (transactions s)))) ;;
     let todayCredits := sumAmounts todayTransactions in
     ret (WalletView w todayCredits recentTransactions))
    (fun _ => ret (Message 500 "Failed to fetch wallet data")).

(* ================================================================== *)
(** * Reporting aggregator *)
(* ================================================================== *)

(** [new Set([...])]: the distinct elements in order of first insertion. *)
Fixpoint setAddAll (items set : list string) : list string :=
  match items with
  | [] => set
  | x :: rest =>
      setAddAll rest (if existsb (String.eqb x) set then set else set ++ [x])
  end.

(** The numeric values of [total_score] in a group, which [$avg] averages. *)
Definition numericScores (fs : list Footprint.doc) : list number :=
  flat_map (fun f => match Footprint.total_score f with
                     | VNum n => [n]
                     | _ => []
                     end) fs.

Section Aggregate.

(** The [$avg] accumulator of the database on a non-empty list of
    numbers; its summation is the database's own. *)
Variable avg : list number -> number.

(** [Footprint.aggregate([{ $group: { _id: "$user", averageScore:
    { $avg: "$total_score" }, entries: { $sum: 1 } } }])], the groups in
    order of first appearance. *)
Definition aggregateByUser (fs : list Footprint.doc) : list Average.t :=
  map (fun u =>
         let group := filter (fun f => String.eqb (Footprint.user f) u) fs in
         Average.mk u
           match numericScores group with
           | [] => None
           | scores => Some (avg scores)
           end
           (Z.of_nat (List.length group)))
      (setAddAll (map Footprint.user fs) []).

End Aggregate.

(** [averageMap[user]] after the [reduce]: the last entry stored under
    that identifier. *)
Definition averageMapGet (averages : list Average.t) (user : string)
  : option Average.t :=
  find (fun a => String.eqb (Average._id a) user) (rev averages).

(** [x || 0] on an integer. *)
Definition orZero (x : Z) : Z := if x =? 0 then 0 else x.

(** [x || null] on a number or [null]. *)
Definition orNull (x : option number) : option number :=
  match x with
  | Some n => if truthy n then Some n else None
  | None => None
  end.

Definition employeeOf (ws : list Wallet.doc) (averages : list Average.t)
    (user : string) : Employee.t :=
  let wallet := findWallet user ws in
  let avg := averageMapGet averages user in
  Employee.mk user
    match wallet with Some w => orZero (Wallet.credits w) | None => 0 end
    match wallet with Some w => Some (Wallet.lastUpdated w) | None => None end
    match avg with Some a => orNull (Average.averageScore a) | None => None end
    match avg with Some a => orZero (Average.entries a) | None => 0 end.

(** Stable insertion for [sort((a, b) => b.credits - a.credits)]. *)
Fixpoint insertByCredits (e : Employee.t) (sorted : list Employee.t)
  : list Employee.t :=
  match sorted with
  | [] => [e]
  | x :: rest =>
      if Employee.credits e <? Employee.credits x
      then x :: insertByCredits e rest
      else e :: sorted
  end.

Fixpoint withRank (es : list Employee.t) (index : Z) : list (Employee.t * Z) :=
  match es with
  | [] => []
  | e :: rest => (e, index + 1) :: withRank rest (index + 1)
  end.

(** The summand [item.averageScore || 0] of the organization average. *)
Definition averageOrZero (a : Average.t) : number :=
  orNumber (Average.averageScore a) (ofZ 0).

Definition summarize (ws : list Wallet.doc) (averages : list Average.t)
  : adminSummary :=
  let userSet :=
    setAddAll (map Wallet.user ws ++ map Average._id averages) [] in
  let employees := map (employeeOf ws averages) userSet in
  let ranking := withRank (fold_right insertByCredits [] employees) 0 in
  let totalCredits :=
    fold_left (fun sum emp => sum + Employee.credits emp) employees 0 in
  let organizationAverage :=
    match averages with
    | [] => ofZ 0
    | _ :: _ =>
        div (fold_left (fun sum item => add sum (averageOrZero item))
                       averages (ofZ 0))
            (ofZ (Z.of_nat (List.length averages)))
    end in
  {| totalEmployees := Z.of_nat (List.length employees);
     totalCredits := totalCredits;
     organizationAverage := organizationAverage;
     employees := employees;
     ranking := ranking |}.

(** [app.get("/api/admin/credits", ...)]; [admin] is the outcome of
    [isAdmin] on the [x-admin-user] header. *)
Definition get_api_admin_credits (avg : list number -> number) (admin : bool)
  : M response :=
  if negb admin then ret (Message 403 "Admin access required")
  else
    tryCatch
      (ws <- gets wallets ;;
       averages <- gets (fun s => aggregateByUser avg (footprints s)) ;;
       ret (AdminView (summarize ws averages)))
      (fun _ => ret (Message 500 "Failed to fetch admin summary")).

(* ================================================================== *)
(** * Requests and runs *)
(* ================================================================== *)

Inductive request : Type :=
| PostFootprint (body : Body.t)
| GetFootprints (user : option string)
| DeleteFootprint (id : nat)
| PutFootprint (id : nat) (body : Body.t)
| PostCreditsEarn (body : earnBody)
| GetWallet (user : string)
| GetAdminCredits (avg : list number -> number) (admin : bool).

Definition handle (r : request) (now : clock) : M response :=
  match r with
  | PostFootprint body => post_api_footprints body now
  | GetFootprints user => get_api_footprints user
  | DeleteFootprint id => delete_api_footprints id
  | PutFootprint id body => put_api_footprints id body
  | PostCreditsEarn body => post_api_credits_earn body now
  | GetWallet user => get_api_credits_wallet user now
  | GetAdminCredits avg admin => get_api_admin_credits avg admin
  end.

(** The store after serving the requests one after the other. *)
Fixpoint run (rs : list (request * clock)) (s : store) : store :=
  match rs with
  | [] => s
  | (r, now) :: rest => run rest (snd (handle r now s))
  end.

(* ================================================================== *)
(** * Reading the ledger *)
(* ================================================================== *)

(** The balance a user holds: the credits of the wallet, 0 without one. *)
Definition balance (user : string) (ws : list Wallet.doc) : Z :=
  match findWallet user ws with
  | Some w => Wallet.credits w
  | None => 0
  end.

(** The transactions recorded for a user. *)
Definition transactionsOf (user : string) (ts : list CreditTransaction.doc)
  : list CreditTransaction.doc :=
  filter (fun t => String.eqb (CreditTransaction.user t) user) ts.

(** The reconciliation invariant: every balance is the sum of the amounts
    of that user's transactions. *)
Definition reconciled (s : store) : Prop :=
  forall user,
    balance user (wallets s) = sumAmounts (transactionsOf user (transactions s)).

(** One footprint per user and day. *)
Definition dayKey (f : Footprint.doc) : string * string :=
  (Footprint.user f, Footprint.date f).

Definition onePerDay (s : store) : Prop := NoDup (map dayKey (footprints s)).


(** The previous score an award reads in a store. *)
Definition previousScoreIn (fs : list Footprint.doc) (user dateLabel : string)
  : option number :=
  match findPrevious user dateLabel fs with
  | Some p =>
      match Footprint.total_score p with
      | VNum n => Some n
      | _ => None
      end
  | None => None
  end.

(** The transactions an award appends. *)
Definition awardedTransactions (user : string) (numericScore : number)
    (dateLabel : string) (previousScore : option number) (now : clock)
  : list CreditTransaction.doc :=
  CreditTransaction.mk user (baseCreditsForScore numericScore) earn
    (DailyFootprint dateLabel (Fixed1 numericScore)) (time now)
  :: (if 0 <? bonusCreditsFor numericScore previousScore
      then [CreditTransaction.mk user
              (bonusCreditsFor numericScore previousScore) bonus
              (ImprovedScore (formatScore previousScore)) (time now)]
      else []).

(** The wallet of a user after [ensureWallet]. *)
Definition ensuredWallet (user : string) (now : clock) (ws : list Wallet.doc)
  : Wallet.doc :=
  match findWallet user ws with
  | Some w => w
  | None => Wallet.mk user 0 (time now)
  end.

(** The wallets after [ensureWallet]. *)
Definition ensuredWallets (user : string) (now : clock) (ws : list Wallet.doc)
  : list Wallet.doc :=
  match findWallet user ws with
  | Some _ => ws
  | None => ws ++ [Wallet.mk user 0 (time now)]
  end.

(** The wallet an award saves. *)
Definition creditedWallet (user : string) (amount : Z) (now : clock)
    (ws : list Wallet.doc) : Wallet.doc :=
  let w := ensuredWallet user now ws in
  Wallet.mk (Wallet.user w) (Wallet.credits w + amount) (time now).

(** The wallets after an award of [amount] to a user. *)
Definition creditedWallets (user : string) (amount : Z) (now : clock)
    (ws : list Wallet.doc) : list Wallet.doc :=
  saveWallet (creditedWallet user amount now ws) (ensuredWallets user now ws).


(** The requests that never reach [ensureWallet]. *)
Definition walletFree (r : request) : bool :=
  match r with
  | GetFootprints _ | DeleteFootprint _ | PutFootprint _ _
  | GetAdminCredits _ _ => true
  | _ => false
  end.

Definition invalidAward : exn :=
  Error "Valid user and score are required to award credits.".

(** The summary an accepted award returns. *)
Definition summaryOf (u : string) (score : value) (date : option string)
    (now : clock) (s : store) : creditSummary :=
  let n := ToNumber score in
  let label := dateOrToday date now in
  let prev := previousScoreIn (footprints s) u label in
  let amount := baseCreditsForScore n + bonusCreditsFor n prev in
  {| baseCredits := baseCreditsForScore n;
     bonusCredits := bonusCreditsFor n prev;
     totalAwarded := amount;
     wallet := creditedWallet u amount now (wallets s);
     awarded := awardedTransactions u n label prev now |}.

(** The store an accepted award leaves. *)
Definition awardedStore (u : string) (score : value) (date : option string)
    (now : clock) (s : store) : store :=
  let cs := summaryOf u score date now s in
  {| footprints := footprints s;
     wallets := creditedWallets u (totalAwarded cs) now (wallets s);
     transactions := transactions s ++ awarded cs;
     nextId := nextId s |}.

(** The payload a submission saves: the date defaulted, the emissions
    backfilled. *)
Definition submittedBody (b : Body.t) (now : clock) : Body.t :=
  backfillEmissions (Body.set_date (Some (dateOrToday (Body.date b) now)) b).

(** The store after [entry.save()] of a submission. *)
Definition savedStore (u : string) (b : Body.t) (now : clock) (s : store) : store :=
  setFootprints
    (footprints s
     ++ [newFootprint (nextId s) u (dateOrToday (Body.date b) now)
           (submittedBody b now)])
    (S (nextId s)) s.

(** A clock and a submission for the examples. *)
Definition sampleClock : clock :=
  {| time := 1704153600000; isoDate := "2024-01-02";
     midnight := 1704153600000; nextMidnight := 1704240000000 |}.

Definition sampleBody : Body.t :=
  Body.mk (Some "a@x.com") (Some "2024-01-01") (VStr "car-petrol")
    (VNum (ofZ 20)) (VStr "vegan")
    VUndefined VUndefined VUndefined VUndefined VUndefined VUndefined.

(** A store holding the saved sample submission, and a partial update
    of its distance alone. *)
Definition sampleStore : store :=
  run [(PostFootprint sampleBody, sampleClock)] emptyStore.



(** The sample store after a wallet lookup for a user without footprints,
    and an aggregate in which a user averages exactly 0. *)
Definition lookedUpStore : store :=
  run [(GetWallet "b@x.com", sampleClock)] sampleStore.

Definition zeroAverages : list Average.t :=
  [Average.mk "a@x.com" (Some (ofZ 0)) 2; Average.mk "c@x.com" (Some (ofZ 6)) 1].

(** The exact value of a finite double, [(-1)^s * m * 2^e], compared with
    an integer [k]; no result for [NaN] and the infinities. *)
Definition exactCompare (x : number) (k : Z) : option comparison :=
  match x with
  | S754_zero _ => Some (0 ?= k)
  | S754_finite s m e =>
      let v := cond_Zopp s (Zpos m) in
      Some (if 0 <=? e then v * 2 ^ e ?= k else v ?= k * 2 ^ (- e))
  | _ => None
  end.

Definition exactlyBelow (x : number) (k : Z) : Prop :=
  exactCompare x k = Some Lt.

Definition exactlyAbove (x : number) (k : Z) : Prop :=
  exactCompare x k = Some Gt.

(** The values a JavaScript number can take: the well-formed doubles. *)
Definition isDouble (x : number) : Prop := valid_binary prec emax x = true.

(** The plain mean of a list of doubles, summed from the left: an [$avg]
    for the examples. *)
Definition meanOf (scores : list number) : number :=
  div (fold_left add scores (ofZ 0)) (ofZ (Z.of_nat (List.length scores))).

(** A day by bicycle and nothing else: a total score of exactly 0. *)
Definition bicycleBody : Body.t :=
  Body.mk (Some "z@x.com") (Some "2024-01-01") (VStr "bicycle")
    (VNum (ofZ 12)) VUndefined
    VUndefined VUndefined VUndefined VUndefined VUndefined VUndefined.

(** [payload.field || 0] as the arithmetic reads it. *)
Definition numericInput (v : value) : number := ToNumber (jsOr v zero).



(** The three ways a request can leave the ledger. *)
Inductive ledgerStep (now : clock) (s s' : store) : Prop :=
| ledger_kept :
    wallets s' = wallets s -> transactions s' = transactions s ->
    ledgerStep now s s'
| ledger_ensured (u : string) :
    wallets s' = ensuredWallets u now (wallets s) ->
    transactions s' = transactions s ->
    ledgerStep now s s'
| ledger_awarded (u : string) (n : number) (label : string)
    (prev : option number) :
    wallets s'
    = creditedWallets u (baseCreditsForScore n + bonusCreditsFor n prev)
        now (wallets s) ->
    transactions s' = transactions s ++ awardedTransactions u n label prev now ->
    ledgerStep now s s'.


(* ================================================================== *)
(** * Administrators *)
(* ================================================================== *)

(** [toLowerCase] on a code unit below 256: the capital letters of ASCII
    and of Latin-1. *)
Definition toLowerCaseChar (c : ascii) : ascii :=
  let n := Z.of_N (N_of_ascii c) in
  if ((65 <=? n) && (n <=? 90))
     || ((192 <=? n) && (n <=? 222) && negb (n =? 215))
  then ascii_of_N (Z.to_N (n + 32))
  else c.

Definition toLowerCase (s : string) : string :=
  string_of_list_ascii (map toLowerCaseChar (list_ascii_of_string s)).

(** [String.prototype.trim]. *)
Definition trimString (s : string) : string :=
  string_of_list_ascii (trim (list_ascii_of_string s)).

(** [s.split(",")], the piece being read kept in reverse. *)
Fixpoint splitComma (cs current : list ascii) : list string :=
  match cs with
  | [] => [string_of_list_ascii (rev current)]
  | c :: rest =>
      if Ascii.eqb c ","%char
      then string_of_list_ascii (rev current) :: splitComma rest []
      else splitComma rest (c :: current)
  end.

(** [email.trim().toLowerCase()]. *)
Definition normalizeEmail (email : string) : string :=
  toLowerCase (trimString email).

(** [adminEmails], from the value of [process.env.ADMIN_EMAILS]. *)
Definition adminEmails (env : option string) : list string :=
  filter (fun email => negb (String.eqb email ""))
    (map normalizeEmail (splitComma (list_ascii_of_string (textOf env)) [])).

Definition isAdmin (admins : list string) (email : option string) : bool :=
  present email && existsb (String.eqb (normalizeEmail (textOf email))) admins.

(** The admin route behind its guard: [requester] is the [x-admin-user]
    header. *)
Definition admin_credits_route (env requester : option string)
    (avg : list number -> number) : M response :=
  get_api_admin_credits avg (isAdmin (adminEmails env) requester).

(* ================================================================== *)
(** * Accounts *)
(* ================================================================== *)

Module User.
Record doc : Type := mk {
  email : string;
  password : string
}.
End User.

(** What the account routes answer. *)
Inductive accountResponse : Type :=
| AccountMessage (status : Z) (message : string)
| AccountOk (message : string) (email : string).

Section Accounts.

(** [bcrypt.hash(password, 10)] under the salt it draws, and
    [bcrypt.compare(password, hash)]. *)
Variable hash : string -> string -> string.
Variable compare : string -> string -> bool.

(** [User.findOne({ email })]. *)
Definition findUser (email : string) (users : list User.doc) : option User.doc :=
  find (fun u => String.eqb (User.email u) email) users.

(** [app.post("/api/signup", ...)] *)
Definition post_api_signup (email password : option string) (salt : string)
    (users : list User.doc) : accountResponse * list User.doc :=
  if negb (present email) || negb (present password) then
    (AccountMessage 400 "Email and password required", users)
  else
    match findUser (textOf email) users with
    | Some _ => (AccountMessage 400 "User already exists", users)
    | None =>
        let hashed := hash salt (textOf password) in
        (AccountOk "Signup successful" (textOf email),
         users ++ [User.mk (textOf email) hashed])
    end.

(** [app.post("/api/signin", ...)] *)
Definition post_api_signin (email password : option string)
    (users : list User.doc) : accountResponse :=
  if negb (present email) || negb (present password) then
    AccountMessage 400 "Email and password required"
  else
    match findUser (textOf email) users with
    | None => AccountMessage 404 "User not found"
    | Some user =>
        if compare (textOf password) (User.password user)
        then AccountOk "Signin successful" (textOf email)
        else AccountMessage 401 "Invalid credentials"
    end.

(** The accounts after a sequence of signups. *)
Fixpoint signupAll (rs : list (option string * option string * string))
    (users : list User.doc) : list User.doc :=
  match rs with
  | [] => users
  | (email, password, salt) :: rest =>
      signupAll rest (snd (post_api_signup email password salt users))
  end.

End Accounts.

(* ================================================================== *)
(** * Invariants of the collections *)
(* ================================================================== *)

(** No two wallets of one user. *)
Definition walletsUnique (s : store) : Prop :=
  NoDup (map Wallet.user (wallets s)).

(** An [earn] transaction carries 5, 3 or 1 credits, a [bonus] one 2. *)
Definition wellTyped (t : CreditTransaction.doc) : bool :=
  match CreditTransaction.type t with
  | earn =>
      (CreditTransaction.amount t =? 5) || (CreditTransaction.amount t =? 3)
      || (CreditTransaction.amount t =? 1)
  | bonus => CreditTransaction.amount t =? 2
  end.

Definition transactionsTyped (s : store) : Prop :=
  Forall (fun t => wellTyped t = true) (transactions s).

(** A number that is not below zero: [NaN] and both zeros included. *)
Definition notNegative (x : number) : Prop := lt x (ofZ 0) = false.

(** The sign of a number is not minus: [NaN] and both zeros included. *)
Definition signOk (x : number) : bool :=
  match x with
  | S754_finite true _ _ | S754_infinity true => false
  | _ => true
  end.

(** An update that moves a record to the user and the day of another. *)
Definition moveTo (f : Footprint.doc) : Body.t :=
  Body.mk (Some (Footprint.user f)) (Some (Footprint.date f)) VUndefined
    VUndefined VUndefined VUndefined VUndefined VUndefined VUndefined
    VUndefined VUndefined.

(** The sum of the balances of all wallets. *)
Definition sumCredits (ws : list Wallet.doc) : Z :=
  fold_left (fun sum w => sum + Wallet.credits w) ws 0.

(** Most recent first, and richest first. *)
Definition newerFirst (a b : CreditTransaction.doc) : Prop :=
  CreditTransaction.date b <= CreditTransaction.date a.

Definition richerFirst (a b : Employee.t) : Prop :=
  Employee.credits b <= Employee.credits a.


(** The record the sample submission saves. *)
Definition sampleRecord : Footprint.doc :=
  newFootprint 0 "a@x.com" "2024-01-01" (submittedBody sampleBody sampleClock).

(** A store with two footprints of one user, on two days. *)
Definition twoDayStore : store :=
  run [(PostFootprint (Body.set_date (Some "2024-01-02") sampleBody), sampleClock)]
      sampleStore.

(* ================================================================== *)
(** * Sanity checks on concrete inputs *)
(* ================================================================== *)

(** The end-to-end example: travel 3.42, food 2.89, energy 0, total 6.31,
    5 base credits, no bonus, and a balance of 5. *)
Example end_to_end_submission :
  let s := run [(PostFootprint sampleBody, sampleClock)] emptyStore in
  map Footprint.travel_emissions (footprints s) = [VNum (nearest false 342 100)]
  /\ map Footprint.food_emissions (footprints s) = [VNum (nearest false 289 100)]
  /\ map Footprint.energy_emissions (footprints s) = [VNum (ofZ 0)]
  /\ map Footprint.total_score (footprints s) = [VNum (nearest false 631 100)]
  /\ map CreditTransaction.amount (transactions s) = [5]
  /\ balance "a@x.com" (wallets s) = 5.
Proof. vm_compute. repeat split; reflexivity. Qed.

Example boundary_awards :
  baseCreditsForScore (ofZ 10) = 3
  /\ baseCreditsForScore (nearest false 999 100) = 5
  /\ baseCreditsForScore (ofZ 20) = 3
  /\ baseCreditsForScore (nearest false 2001 100) = 1
  /\ bonusCreditsFor (ofZ 8) (Some (ofZ 10)) = 2
  /\ bonusCreditsFor (ofZ 10) (Some (ofZ 10)) = 0.
Proof. vm_compute. repeat split; reflexivity. Qed.

(** A user whose only score is 0 has credits and one entry, and no
    average score in the admin summary. *)
Example zero_score_in_admin_summary :
  fst (get_api_admin_credits meanOf true
         (run [(PostFootprint bicycleBody, sampleClock)] emptyStore))
  = inr (AdminView
           {| totalEmployees := 1;
              totalCredits := 5;
              organizationAverage := ofZ 0;
              employees := [Employee.mk "z@x.com" 5 (Some (time sampleClock)) None 1];
              ranking := [(Employee.mk "z@x.com" 5 (Some (time sampleClock)) None 1, 1)] |}).
Proof. vm_compute. reflexivity. Qed.

Example numeric_strings :
  StringToNumber "20" = ofZ 20
  /\ StringToNumber " 3.42 " = nearest false 342 100
  /\ StringToNumber "" = ofZ 0
  /\ StringToNumber "0x10" = ofZ 16
  /\ StringToNumber "1e3" = ofZ 1000
  /\ StringToNumber "abc" = NaN
  /\ StringToNumber "-Infinity" = S754_infinity true.
Proof. vm_compute. repeat split; reflexivity. Qed.

(* ================================================================== *)
(** * Lists, strings and sums *)
(* ================================================================== *)

Lemma string_ltb_irrefl (a : string) : String.ltb a a = false.
Proof.
  unfold String.ltb.
  pose proof (String.compare_antisym a a) as H.
  destruct (String.compare a a); simpl in H; congruence.
Qed.

Lemma sumAmounts_from (ts : list CreditTransaction.doc) (k : Z) :
  fold_left (fun sum txn => sum + CreditTransaction.amount txn) ts k
  = k + sumAmounts ts.
Proof.
  unfold sumAmounts. revert k.
  induction ts as [|t ts IH]; intros k; simpl.
  - lia.
  - rewrite IH. rewrite (IH (CreditTransaction.amount t)). lia.
Qed.

Lemma sumAmounts_app (l r : list CreditTransaction.doc) :
  sumAmounts (l ++ r) = sumAmounts l + sumAmounts r.
Proof.
  unfold sumAmounts at 1. rewrite fold_left_app.
  rewrite sumAmounts_from. reflexivity.
Qed.

Lemma transactionsOf_app (u : string) (l r : list CreditTransaction.doc) :
  transactionsOf u (l ++ r) = transactionsOf u l ++ transactionsOf u r.
Proof. apply filter_app. Qed.

(* ================================================================== *)
(** * Wallet lookups *)
(* ================================================================== *)

Lemma findWallet_user (u : string) (ws : list Wallet.doc) (w : Wallet.doc) :
  findWallet u ws = Some w -> Wallet.user w = u.
Proof.
  intros H. apply find_some in H. destruct H as [_ H].
  apply String.eqb_eq in H. exact H.
Qed.

Lemma findWallet_app (u : string) (ws more : list Wallet.doc) :
  findWallet u (ws ++ more)
  = match findWallet u ws with
    | Some w => Some w
    | None => findWallet u more
    end.
Proof.
  unfold findWallet.
  induction ws as [|x ws IH]; simpl; [reflexivity|].
  destruct (String.eqb (Wallet.user x) u); [reflexivity|exact IH].
Qed.

Lemma findWallet_save_same (w : Wallet.doc) (ws : list Wallet.doc) :
  findWallet (Wallet.user w) ws <> None ->
  findWallet (Wallet.user w) (saveWallet w ws) = Some w.
Proof.
  unfold findWallet.
  induction ws as [|x ws IH]; simpl; intros H; [congruence|].
  destruct (String.eqb (Wallet.user x) (Wallet.user w)) eqn:E; simpl.
  - rewrite String.eqb_refl. reflexivity.
  - rewrite E. apply IH. exact H.
Qed.

Lemma findWallet_save_other (v : string) (w : Wallet.doc) (ws : list Wallet.doc) :
  v <> Wallet.user w ->
  findWallet v (saveWallet w ws) = findWallet v ws.
Proof.
  intros Hv. unfold findWallet.
  induction ws as [|x ws IH]; simpl; [reflexivity|].
  destruct (String.eqb (Wallet.user x) (Wallet.user w)) eqn:E; simpl.
  - apply String.eqb_eq in E.
    assert (F : String.eqb (Wallet.user w) v = false)
      by (apply String.eqb_neq; congruence).
    rewrite F. rewrite E, F. reflexivity.
  - destruct (String.eqb (Wallet.user x) v); [reflexivity|exact IH].
Qed.

Lemma ensuredWallet_user (u : string) (now : clock) (ws : list Wallet.doc) :
  Wallet.user (ensuredWallet u now ws) = u.
Proof.
  unfold ensuredWallet. destruct (findWallet u ws) eqn:E.
  - eapply findWallet_user; eassumption.
  - reflexivity.
Qed.

Lemma findWallet_ensured (u : string) (now : clock) (ws : list Wallet.doc) :
  findWallet u (ensuredWallets u now ws) = Some (ensuredWallet u now ws).
Proof.
  unfold ensuredWallets, ensuredWallet.
  destruct (findWallet u ws) eqn:E; [exact E|].
  rewrite findWallet_app, E. unfold findWallet. simpl.
  rewrite String.eqb_refl. reflexivity.
Qed.

Lemma balance_ensured (v u : string) (now : clock) (ws : list Wallet.doc) :
  balance v (ensuredWallets u now ws) = balance v ws.
Proof.
  unfold balance, ensuredWallets.
  destruct (findWallet u ws) eqn:E; [reflexivity|].
  rewrite findWallet_app. destruct (findWallet v ws) eqn:F; [reflexivity|].
  unfold findWallet. simpl.
  destruct (String.eqb u v); reflexivity.
Qed.

Lemma balance_credited_same (u : string) (amount : Z) (now : clock)
    (ws : list Wallet.doc) :
  balance u (creditedWallets u amount now ws) = balance u ws + amount.
Proof.
  unfold balance at 1, creditedWallets.
  assert (U : Wallet.user (creditedWallet u amount now ws) = u)
    by (unfold creditedWallet; simpl; apply ensuredWallet_user).
  rewrite <- U at 1. rewrite findWallet_save_same.
  - unfold creditedWallet. simpl. f_equal.
    unfold ensuredWallet, balance. destruct (findWallet u ws); reflexivity.
  - rewrite U, findWallet_ensured. discriminate.
Qed.

Lemma balance_credited_other (v u : string) (amount : Z) (now : clock)
    (ws : list Wallet.doc) :
  v <> u ->
  balance v (creditedWallets u amount now ws) = balance v ws.
Proof.
  intros Hv. unfold balance at 1, creditedWallets.
  rewrite findWallet_save_other.
  - apply (balance_ensured v u now ws).
  - unfold creditedWallet. simpl. rewrite ensuredWallet_user. exact Hv.
Qed.

(* ================================================================== *)
(** * The award in closed form *)
(* ================================================================== *)

Lemma award_rejected (user : option string) (score : value)
    (date : option string) (now : clock) (s : store) :
  present user = false \/ isNaN (ToNumber score) = true ->
  awardCreditsForFootprint user score date now s = (inl invalidAward, s).
Proof.
  unfold awardCreditsForFootprint, invalidAward.
  intros [H|H]; rewrite H; [|rewrite orb_true_r]; reflexivity.
Qed.

Lemma award_accepted (u : string) (score : value) (date : option string)
    (now : clock) (s : store) :
  u <> "" ->
  isNaN (ToNumber score) = false ->
  awardCreditsForFootprint (Some u) score date now s
  = (inr (summaryOf u score date now s), awardedStore u score date now s).
Proof.
  intros Hu Hn. apply String.eqb_neq in Hu.
  unfold awardCreditsForFootprint, ensureWallet, present.
  rewrite Hu, Hn. cbn [negb orb textOf].
  unfold awardedStore, summaryOf, creditedWallets, creditedWallet,
    ensuredWallets, ensuredWallet, previousScoreIn.
  unfold bind, getPreviousScore, insertMany, gets, modify, ret, bind.
  simpl.
  destruct (findWallet u (wallets s)) as [w|] eqn:E; simpl; reflexivity.
Qed.

(* ================================================================== *)
(** * The routes in closed form *)
(* ================================================================== *)

Lemma backfill_number (field : value) (x : number) :
  isNumberValue (backfill field x) = true.
Proof.
  unfold backfill. destruct (isNumberValue field) eqn:E; [exact E|reflexivity].
Qed.

Lemma submitted_user (b : Body.t) (now : clock) :
  Body.user (submittedBody b now) = Body.user b.
Proof. reflexivity. Qed.

Lemma submitted_date (b : Body.t) (now : clock) :
  Body.date (submittedBody b now) = Some (dateOrToday (Body.date b) now).
Proof. reflexivity. Qed.

Lemma submitted_score_number (b : Body.t) (now : clock) :
  isNumberValue (Body.total_score (submittedBody b now)) = true.
Proof. unfold submittedBody, backfillEmissions. simpl. apply backfill_number. Qed.


Lemma post_without_user (b : Body.t) (now : clock) (s : store) :
  present (Body.user b) = false ->
  post_api_footprints b now s = (inr (Message 400 "User email is required"), s).
Proof.
  intros H. unfold post_api_footprints, tryCatch, ret. rewrite H. reflexivity.
Qed.

Lemma post_duplicate (b : Body.t) (now : clock) (s : store) (u : string)
    (f : Footprint.doc) :
  Body.user b = Some u -> u <> "" ->
  findFootprint u (dateOrToday (Body.date b) now) (footprints s) = Some f ->
  post_api_footprints b now s
  = (inr (Message 409 "You already submitted a footprint for this date."), s).
Proof.
  intros Hu Hne Hf. apply String.eqb_neq in Hne.
  unfold post_api_footprints, present. rewrite Hu, Hne. cbn [negb textOf].
  unfold tryCatch, bind, gets, ret. rewrite Hf. reflexivity.
Qed.

Lemma post_saved (b : Body.t) (now : clock) (s : store) (u : string) :
  Body.user b = Some u -> u <> "" ->
  findFootprint u (dateOrToday (Body.date b) now) (footprints s) = None ->
  let score := Body.total_score (submittedBody b now) in
  let date := Some (dateOrToday (Body.date b) now) in
  let s1 := savedStore u b now s in
  post_api_footprints b now s
  = if isNaN (ToNumber score)
    then (inr (Failure 500 "Error saving footprint" (messageOf invalidAward)), s1)
    else (inr (FootprintSaved (Some (summaryOf u score date now s1))),
          awardedStore u score date now s1).
Proof.
  intros Hu Hne Hf score date s1.
  pose proof Hne as Hne'. apply String.eqb_neq in Hne'.
  unfold post_api_footprints, present. rewrite Hu, Hne'. cbn [negb textOf].
  unfold tryCatch. unfold bind at 1. unfold gets at 1. rewrite Hf.
  unfold bind at 1. unfold modify at 1.
  fold (submittedBody b now). fold (savedStore u b now s). fold s1.
  rewrite submitted_user, submitted_date, submitted_score_number, Hu.
  unfold present. rewrite Hne'. simpl negb. simpl andb. cbv iota.
  fold score. fold date.
  unfold bind at 1. unfold bind at 1.
  destruct (isNaN (ToNumber score)) eqn:En.
  - rewrite award_rejected by (right; exact En). reflexivity.
  - rewrite award_accepted by assumption. reflexivity.
Qed.

Lemma earn_rejected (r : earnBody) (now : clock) (s : store) :
  present (earnUser r) = false \/ isNumberValue (earnScore r) = false ->
  post_api_credits_earn r now s
  = (inr (Message 400 "User email and numeric score are required"), s).
Proof.
  intros H. unfold post_api_credits_earn, tryCatch, ret.
  destruct H as [H|H]; rewrite H; simpl.
  - reflexivity.
  - rewrite orb_true_r. reflexivity.
Qed.

Lemma earn_awarded (u : string) (n : number) (d : option string)
    (now : clock) (s : store) :
  u <> "" ->
  let r := {| earnUser := Some u; earnScore := VNum n; earnDate := d |} in
  post_api_credits_earn r now s
  = if isNaN n
    then (inr (Failure 500 "Failed to award credits" (messageOf invalidAward)), s)
    else (inr (CreditsAwarded (summaryOf u (VNum n) d now s)),
          awardedStore u (VNum n) d now s).
Proof.
  intros Hne r. pose proof Hne as Hne'. apply String.eqb_neq in Hne'.
  unfold post_api_credits_earn, r, present.
  cbn [earnUser earnScore earnDate isNumberValue negb orb].
  rewrite Hne'. cbn [negb orb].
  unfold tryCatch, bind.
  destruct (isNaN n) eqn:En.
  - rewrite award_rejected by (right; exact En). reflexivity.
  - rewrite award_accepted by assumption. reflexivity.
Qed.

Lemma wallet_lookup_effect (u : string) (now : clock) (s : store) :
  let s' := snd (get_api_credits_wallet u now s) in
  wallets s' = (if String.eqb u "" then wallets s
                else ensuredWallets u now (wallets s))
  /\ transactions s' = transactions s
  /\ footprints s' = footprints s.
Proof.
  unfold get_api_credits_wallet, tryCatch, ensureWallet, ensuredWallets, present.
  destruct (String.eqb u "") eqn:E; cbn [negb textOf].
  - unfold bind, throw, ret. simpl. auto.
  - unfold bind, gets, modify, ret.
    destruct (findWallet u (wallets s)); simpl; auto.
Qed.

Lemma walletFree_effect (r : request) (now : clock) (s : store) :
  walletFree r = true ->
  let s' := snd (handle r now s) in
  wallets s' = wallets s /\ transactions s' = transactions s.
Proof.
  destruct r as [b|u|id|id b|b|u|avg admin]; simpl; intros H;
    try discriminate.
  - unfold get_api_footprints, tryCatch, bind, gets, ret. simpl. auto.
  - unfold delete_api_footprints, tryCatch, bind, modify, ret. simpl. auto.
  - unfold put_api_footprints, findByIdAndUpdate, tryCatch, bind, gets,
      modify, ret.
    destruct (findById id (footprints s)); simpl; auto.
  - unfold get_api_admin_credits, tryCatch, bind, gets, ret.
    destruct admin; simpl; auto.
Qed.

(* ================================================================== *)
(** * Reconciliation of balances and transactions *)
(* ================================================================== *)

Lemma bonus_values (n : number) (prev : option number) :
  bonusCreditsFor n prev = 2 \/ bonusCreditsFor n prev = 0.
Proof.
  unfold bonusCreditsFor. destruct prev as [p|]; [|auto].
  destruct (lt n p); auto.
Qed.

Lemma awarded_sum (u : string) (n : number) (label : string)
    (prev : option number) (now : clock) :
  sumAmounts (awardedTransactions u n label prev now)
  = baseCreditsForScore n + bonusCreditsFor n prev.
Proof.
  unfold awardedTransactions.
  destruct (bonus_values n prev) as [H|H]; rewrite H; unfold sumAmounts;
    simpl; lia.
Qed.

Lemma awarded_of_user (u : string) (n : number) (label : string)
    (prev : option number) (now : clock) :
  transactionsOf u (awardedTransactions u n label prev now)
  = awardedTransactions u n label prev now.
Proof.
  unfold transactionsOf, awardedTransactions.
  destruct (0 <? bonusCreditsFor n prev); simpl;
    rewrite !String.eqb_refl; reflexivity.
Qed.

Lemma awarded_of_other (v u : string) (n : number) (label : string)
    (prev : option number) (now : clock) :
  v <> u ->
  transactionsOf v (awardedTransactions u n label prev now) = [].
Proof.
  intros H.
  assert (E : String.eqb u v = false) by (apply String.eqb_neq; congruence).
  unfold transactionsOf, awardedTransactions.
  destruct (0 <? bonusCreditsFor n prev); simpl; rewrite !E; reflexivity.
Qed.

Lemma awardedStore_step (u : string) (score : value) (date : option string)
    (now : clock) (s0 s : store) :
  wallets s = wallets s0 -> transactions s = transactions s0 ->
  ledgerStep now s0 (awardedStore u score date now s).
Proof.
  intros Hw Ht.
  eapply ledger_awarded with (u := u) (n := ToNumber score).
  - unfold awardedStore, summaryOf. simpl. rewrite Hw. reflexivity.
  - unfold awardedStore, summaryOf. simpl. rewrite Ht. reflexivity.
Qed.

Lemma handle_ledger (r : request) (now : clock) (s : store) :
  ledgerStep now s (snd (handle r now s)).
Proof.
  destruct (walletFree r) eqn:W.
  - destruct (walletFree_effect r now s W). apply ledger_kept; assumption.
  - destruct r as [b|u|id|id b|b|u|avg admin]; try discriminate; simpl.
    + (* submission *)
      destruct (present (Body.user b)) eqn:P.
      * unfold present in P. destruct (Body.user b) as [u|] eqn:Hu;
          [|discriminate].
        destruct (String.eqb u "") eqn:Hne; [discriminate|].
        apply String.eqb_neq in Hne.
        destruct (findFootprint u (dateOrToday (Body.date b) now) (footprints s))
          as [f|] eqn:Hf.
        -- rewrite (post_duplicate b now s u f Hu Hne Hf).
           apply ledger_kept; reflexivity.
        -- rewrite (post_saved b now s u Hu Hne Hf).
           destruct (isNaN _).
           ++ apply ledger_kept; reflexivity.
           ++ apply awardedStore_step; reflexivity.
      * rewrite post_without_user by exact P. apply ledger_kept; reflexivity.
    + (* manual award *)
      destruct b as [user score date].
      destruct (present user) eqn:P.
      * destruct score as [| |x|n|x];
          try (rewrite earn_rejected by (right; reflexivity);
               apply ledger_kept; reflexivity).
        unfold present in P. destruct user as [u|]; [|discriminate].
        destruct (String.eqb u "") eqn:Hne; [discriminate|].
        apply String.eqb_neq in Hne.
        rewrite (earn_awarded u n date now s Hne).
        destruct (isNaN n).
        -- apply ledger_kept; reflexivity.
        -- apply awardedStore_step; reflexivity.
      * rewrite earn_rejected by (left; exact P). apply ledger_kept; reflexivity.
    + (* wallet lookup *)
      destruct (wallet_lookup_effect u now s) as (Hw & Ht & _).
      destruct (String.eqb u "").
      * apply ledger_kept; assumption.
      * apply ledger_ensured with (u := u); assumption.
Qed.

Lemma ledgerStep_reconciled (now : clock) (s s' : store) :
  ledgerStep now s s' -> reconciled s -> reconciled s'.
Proof.
  intros [Hw Ht|u Hw Ht|u n label prev Hw Ht] R v; unfold reconciled in R.
  - rewrite Hw, Ht. apply R.
  - rewrite Hw, Ht, balance_ensured. apply R.
  - rewrite Hw, Ht, transactionsOf_app, sumAmounts_app.
    destruct (String.eqb v u) eqn:E.
    + apply String.eqb_eq in E. subst v.
      rewrite balance_credited_same, awarded_of_user, awarded_sum, R.
      reflexivity.
    + apply String.eqb_neq in E.
      rewrite balance_credited_other, awarded_of_other by exact E.
      rewrite R. unfold sumAmounts at 3. simpl. lia.
Qed.

Lemma run_reconciled (rs : list (request * clock)) (s : store) :
  reconciled s -> reconciled (run rs s).
Proof.
  revert s. induction rs as [|[r now] rs IH]; intros s R; simpl.
  - exact R.
  - apply IH. eapply ledgerStep_reconciled; [apply handle_ledger|exact R].
Qed.

Lemma emptyStore_reconciled : reconciled emptyStore.
Proof. intros u. reflexivity. Qed.

(* ================================================================== *)
(** * One footprint per user and day *)
(* ================================================================== *)





(* ================================================================== *)
(** * The claims *)
(* ================================================================== *)

(** C1. Reconciliation: after any sequence of requests served from a
    reconciled store, and so after any sequence of credit awards made by
    footprint submissions or by the manual route, every user's wallet
    balance equals the sum of the amounts of that user's transactions; and
    a further accepted award appends its transactions and raises the
    balance of the user by the same total, base plus bonus. *)
Theorem wallet_balance_reconciles
    (rs : list (request * clock)) (s : store) (R : reconciled s) :
  reconciled (run rs s)
  /\ forall (u : string) (score : value) (date : option string) (now : clock),
       u <> "" -> isNaN (ToNumber score) = false ->
       exists cs s',
         awardCreditsForFootprint (Some u) score date now (run rs s) = (inr cs, s')
         /\ transactions s' = transactions (run rs s) ++ awarded cs
         /\ sumAmounts (awarded cs) = baseCredits cs + bonusCredits cs
         /\ balance u (wallets s')
            = balance u (wallets (run rs s)) + (baseCredits cs + bonusCredits cs)
         /\ reconciled s'.
Proof.
  pose proof (run_reconciled rs s R) as R'.
  split; [exact R'|].
  intros u score date now Hu Hn.
  exists (summaryOf u score date now (run rs s)),
         (awardedStore u score date now (run rs s)).
  split; [apply award_accepted; assumption|].
  split; [reflexivity|].
  split; [apply awarded_sum|].
  split; [apply balance_credited_same|].
  eapply ledgerStep_reconciled; [|exact R'].
  apply awardedStore_step; reflexivity.
Qed.

Lemma wallet_balance_reconciles_witness :
  reconciled emptyStore
  /\ reconciled
       (run [(PostFootprint sampleBody, sampleClock);
             (PostCreditsEarn
                {| earnUser := Some "a@x.com"; earnScore := VNum (ofZ 8);
                   earnDate := None |}, sampleClock);
             (GetWallet "b@x.com", sampleClock)]
            emptyStore).
Proof.
  split.
  - exact emptyStore_reconciled.
  - exact (proj1 (wallet_balance_reconciles _ emptyStore emptyStore_reconciled)).
Defined.



(** A request either leaves every balance as it was or reports an award. *)
Lemma balance_changes_by_award (r : request) (now : clock) (s : store) :
  (forall v, balance v (wallets (snd (handle r now s))) = balance v (wallets s))
  \/ exists cs,
       fst (handle r now s) = inr (FootprintSaved (Some cs))
       \/ fst (handle r now s) = inr (CreditsAwarded cs).
Proof.
  destruct (walletFree r) eqn:W.
  - left. intros v. destruct (walletFree_effect r now s W) as [Hw _].
    rewrite Hw. reflexivity.
  - destruct r as [b|u|id|id b|b|u|avg admin]; try discriminate; simpl.
    + destruct (present (Body.user b)) eqn:P.
      * unfold present in P. destruct (Body.user b) as [u|] eqn:Hu;
          [|discriminate].
        destruct (String.eqb u "") eqn:Hne; [discriminate|].
        apply String.eqb_neq in Hne.
        destruct (findFootprint u (dateOrToday (Body.date b) now) (footprints s))
          as [f|] eqn:Hf.
        -- left. rewrite (post_duplicate b now s u f Hu Hne Hf). reflexivity.
        -- rewrite (post_saved b now s u Hu Hne Hf).
           destruct (isNaN _).
           ++ left. reflexivity.
           ++ right. eexists. left. reflexivity.
      * left. rewrite post_without_user by exact P. reflexivity.
    + destruct b as [user score date].
      destruct (present user) eqn:P.
      * destruct score as [| |x|n|x];
          try (left; rewrite earn_rejected by (right; reflexivity); reflexivity).
        unfold present in P. destruct user as [u|]; [|discriminate].
        destruct (String.eqb u "") eqn:Hne; [discriminate|].
        apply String.eqb_neq in Hne.
        rewrite (earn_awarded u n date now s Hne).
        destruct (isNaN n).
        -- left. reflexivity.
        -- right. eexists. right. reflexivity.
      * left. rewrite earn_rejected by (left; exact P). reflexivity.
    + left. intros v. destruct (wallet_lookup_effect u now s) as (Hw & _).
      rewrite Hw. destruct (String.eqb u ""); [reflexivity|].
      apply balance_ensured.
Qed.

(** C6, as the code has it.  The wallet lookup reaches [ensureWallet]: for
    a user without a wallet it appends one with balance 0, and it leaves
    every wallet that exists, and every balance, as it was; listing,
    deleting and updating footprints and the admin summary leave the
    wallets unchanged; and a request that changes a balance reports an
    award. *)
Theorem wallet_lookup_creates_wallet (now : clock) (s : store) :
  (forall u : string,
      u <> "" -> findWallet u (wallets s) = None ->
      wallets (snd (get_api_credits_wallet u now s))
      = wallets s ++ [Wallet.mk u 0 (time now)])
  /\ (forall (u : string) (w : Wallet.doc),
        findWallet u (wallets s) = Some w ->
        wallets (snd (get_api_credits_wallet u now s)) = wallets s)
  /\ (forall u v : string,
        balance v (wallets (snd (get_api_credits_wallet u now s)))
        = balance v (wallets s))
  /\ (forall r : request,
        walletFree r = true -> wallets (snd (handle r now s)) = wallets s)
  /\ (forall r : request,
        (forall v,
            balance v (wallets (snd (handle r now s))) = balance v (wallets s))
        \/ exists cs,
             fst (handle r now s) = inr (FootprintSaved (Some cs))
             \/ fst (handle r now s) = inr (CreditsAwarded cs)).
Proof.
  split; [|split; [|split; [|split]]].
  - intros u Hu Hf. destruct (wallet_lookup_effect u now s) as (Hw & _).
    apply String.eqb_neq in Hu. rewrite Hu in Hw. rewrite Hw.
    unfold ensuredWallets. rewrite Hf. reflexivity.
  - intros u w Hf. destruct (wallet_lookup_effect u now s) as (Hw & _).
    rewrite Hw. unfold ensuredWallets. rewrite Hf.
    destruct (String.eqb u ""); reflexivity.
  - intros u v. destruct (wallet_lookup_effect u now s) as (Hw & _).
    rewrite Hw. destruct (String.eqb u ""); [reflexivity|].
    apply balance_ensured.
  - intros r Hr. apply (walletFree_effect r now s Hr).
  - intros r. apply balance_changes_by_award.
Qed.

Lemma wallet_lookup_creates_wallet_witness :
  wallets (snd (get_api_credits_wallet "b@x.com" sampleClock
                  (run [(PostFootprint sampleBody, sampleClock)] emptyStore)))
  = wallets (run [(PostFootprint sampleBody, sampleClock)] emptyStore)
    ++ [Wallet.mk "b@x.com" 0 (time sampleClock)].
Proof.
  apply (proj1 (wallet_lookup_creates_wallet sampleClock _)).
  - discriminate.
  - vm_compute. reflexivity.
Defined.

(** C6, as stated, fails: the wallet lookup for a user who has no wallet
    creates one. *)
Lemma wallet_lookup_is_not_read_only :
  wallets emptyStore = []
  /\ wallets (snd (get_api_credits_wallet "a@x.com" sampleClock emptyStore))
     = [Wallet.mk "a@x.com" 0 (time sampleClock)]
  /\ wallets (snd (get_api_credits_wallet "a@x.com" sampleClock emptyStore))
     <> wallets emptyStore.
Proof.
  split; [reflexivity|]. split; [reflexivity|]. discriminate.
Qed.

(** C4, as the code has it.  The award throws, and writes nothing, exactly
    when the user is absent or empty or [Number(score)] is [NaN]; for a
    present user and any other score, the infinities included, it awards. *)
Theorem award_rejects_only_nan
    (user : option string) (score : value) (date : option string)
    (now : clock) (s : store) :
  (present user = false \/ isNaN (ToNumber score) = true ->
   awardCreditsForFootprint user score date now s = (inl invalidAward, s))
  /\ (present user = true -> isNaN (ToNumber score) = false ->
      exists cs s',
        awardCreditsForFootprint user score date now s = (inr cs, s')
        /\ baseCredits cs = baseCreditsForScore (ToNumber score)
        /\ totalAwarded cs = baseCredits cs + bonusCredits cs
        /\ transactions s' = transactions s ++ awarded cs).
Proof.
  split.
  - apply award_rejected.
  - intros P Hn. unfold present in P. destruct user as [u|]; [|discriminate].
    destruct (String.eqb u "") eqn:Hu; [discriminate|].
    apply String.eqb_neq in Hu.
    exists (summaryOf u score date now s), (awardedStore u score date now s).
    split; [apply award_accepted; assumption|].
    repeat split.
Qed.

Lemma award_rejects_only_nan_witness :
  awardCreditsForFootprint (Some "a@x.com") (VStr "abc") None sampleClock emptyStore
  = (inl invalidAward, emptyStore)
  /\ exists cs s',
       awardCreditsForFootprint (Some "a@x.com") (VStr "12") None sampleClock
         emptyStore = (inr cs, s')
       /\ baseCredits cs = baseCreditsForScore (ToNumber (VStr "12"))
       /\ totalAwarded cs = baseCredits cs + bonusCredits cs
       /\ transactions s' = transactions emptyStore ++ awarded cs.
Proof.
  split.
  - apply (proj1 (award_rejects_only_nan _ _ _ _ _)). right. reflexivity.
  - apply (proj2 (award_rejects_only_nan _ _ _ _ _)); reflexivity.
Defined.

(** C4, as stated, fails: a score of [+Infinity] is not a finite number,
    and the award succeeds with one base credit. *)
Lemma infinite_score_is_awarded :
  isFinite Infinity = false
  /\ exists cs s',
       awardCreditsForFootprint (Some "a@x.com") (VNum Infinity) None
         sampleClock emptyStore = (inr cs, s')
       /\ totalAwarded cs = 1
       /\ balance "a@x.com" (wallets s') = 1.
Proof.
  split; [reflexivity|].
  do 2 eexists. split; [vm_compute; reflexivity|]. split; reflexivity.
Qed.





(* ================================================================== *)
(** * Updating a footprint *)
(* ================================================================== *)

Lemma findById_id (id : nat) (fs : list Footprint.doc) (d : Footprint.doc) :
  findById id fs = Some d -> Footprint._id d = id.
Proof.
  intros H. apply find_some in H. destruct H as [_ H].
  apply Nat.eqb_eq in H. exact H.
Qed.






(* ================================================================== *)
(** * Emissions *)
(* ================================================================== *)







(* ================================================================== *)
(** * Credit policy *)
(* ================================================================== *)

Lemma SFcompare_antisym (x y : number) :
  SFcompare y x = option_map CompOpp (SFcompare x y).
Proof.
  destruct x as [sx|sx| |sx mx ex], y as [sy|sy| |sy my ey]; simpl;
    try reflexivity;
    try (destruct sx; reflexivity);
    try (destruct sy; reflexivity);
    try (destruct sx, sy; reflexivity).
  destruct sx, sy; simpl; try reflexivity;
    rewrite (Z.compare_antisym ex ey);
    destruct (ex ?= ey); simpl; try reflexivity;
    rewrite (Pos.compare_cont_antisym mx my Eq); reflexivity.
Qed.

Lemma SFcompare_defined (x y : number) :
  isNaN x = false -> isNaN y = false -> exists c, SFcompare x y = Some c.
Proof.
  destruct x, y; simpl; intros Hx Hy; try discriminate; eauto.
Qed.

(** Between two numbers of which neither is [NaN], [x < y] fails exactly
    when [y <= x] holds. *)
Lemma lt_false_le (x y : number) :
  isNaN x = false -> isNaN y = false ->
  lt x y = false -> le y x = true.
Proof.
  intros Hx Hy. destruct (SFcompare_defined x y Hx Hy) as [c Hc].
  unfold lt, le, SFltb, SFleb. rewrite (SFcompare_antisym x y), Hc.
  destruct c; simpl; congruence.
Qed.

Lemma le_true_lt_false (x y : number) : le y x = true -> lt x y = false.
Proof.
  unfold lt, le, SFltb, SFleb. rewrite (SFcompare_antisym x y).
  destruct (SFcompare x y) as [[]|]; simpl; congruence.
Qed.

Lemma lt_true_le_false (x y : number) : lt y x = true -> le x y = false.
Proof.
  unfold lt, le, SFltb, SFleb. rewrite (SFcompare_antisym x y).
  destruct (SFcompare x y) as [[]|]; simpl; congruence.
Qed.

Lemma ten_value : ten = S754_finite false 5629499534213120 (-49).
Proof. vm_compute. reflexivity. Qed.

Lemma twenty_value : twenty = S754_finite false 5629499534213120 (-48).
Proof. vm_compute. reflexivity. Qed.

(** Above twenty is not below ten. *)
Lemma above_twenty_not_below_ten (x : number) :
  lt twenty x = true -> lt x ten = false.
Proof.
  rewrite ten_value, twenty_value. unfold lt, SFltb.
  destruct x as [sx|sx| |sx mx ex]; cbn [SFcompare]; try discriminate.
  - destruct sx; [discriminate|reflexivity].
  - destruct sx; [discriminate|].
    destruct (Z.compare_spec (-48) ex) as [E|E|E];
      destruct (Z.compare_spec ex (-49)) as [F|F|F];
      try lia; try reflexivity; discriminate.
Qed.

Lemma finite_not_nan (x : number) : isFinite x = true -> isNaN x = false.
Proof. destruct x; simpl; congruence. Qed.

Lemma digits2_pos_bounds (m : positive) :
  2 ^ (Zpos (digits2_pos m) - 1) <= Zpos m < 2 ^ Zpos (digits2_pos m).
Proof.
  induction m as [p IH|p IH|]; simpl digits2_pos.
  - rewrite Pos2Z.inj_succ.
    replace (Z.succ (Zpos (digits2_pos p)) - 1)
      with (Z.succ (Zpos (digits2_pos p) - 1)) by lia.
    rewrite !Z.pow_succ_r by lia. lia.
  - rewrite Pos2Z.inj_succ.
    replace (Z.succ (Zpos (digits2_pos p)) - 1)
      with (Z.succ (Zpos (digits2_pos p) - 1)) by lia.
    rewrite !Z.pow_succ_r by lia. lia.
  - simpl. lia.
Qed.

(** The mantissa of a double has at most 53 bits, and exactly 53 above
    the least exponent. *)
Lemma bounded_digits (m : positive) (e : Z) :
  bounded prec emax m e = true ->
  Zpos m < 2 ^ 53 /\ (-1074 < e -> 2 ^ 52 <= Zpos m).
Proof.
  unfold bounded, canonical_mantissa, fexp, emin, prec, emax.
  intros H. apply andb_prop in H. destruct H as [H _].
  apply Z.eqb_eq in H.
  pose proof (digits2_pos_bounds m) as [Lo Hi].
  set (d := Zpos (digits2_pos m)) in *.
  split.
  - assert (d <= 53) by lia.
    eapply Z.lt_le_trans; [exact Hi|]. apply Z.pow_le_mono_r; lia.
  - intros He. assert (d = 53) by lia.
    replace 52 with (d - 1) by lia. exact Lo.
Qed.

Lemma two_le_pow (n : Z) : 1 <= n -> 2 <= 2 ^ n.
Proof.
  intros H. replace 2 with (2 ^ 1) at 1 by reflexivity.
  apply Z.pow_le_mono_r; lia.
Qed.

(** The comparison of doubles with a positive constant [k = c * 2^ek] of a
    full mantissa is the comparison of the exact values. *)
Lemma compare_exact (x : number) (k : Z) (c : positive) (ek : Z) :
  isDouble x -> isFinite x = true ->
  0 < k -> -1074 < ek < 0 -> Zpos c = k * 2 ^ (- ek) ->
  2 ^ 52 <= Zpos c < 2 ^ 53 ->
  SFcompare x (S754_finite false c ek) = exactCompare x k.
Proof.
  unfold isDouble. intros V F Hk Hek Hc Hcb.
  destruct x as [s|s| |s m e]; try discriminate.
  - unfold exactCompare, SFcompare. f_equal. symmetry.
    apply Z.compare_lt_iff. exact Hk.
  - simpl in V. destruct (bounded_digits m e V) as [Hi Lo].
    unfold exactCompare, SFcompare.
    assert (P : forall n, 0 <= n -> 0 < 2 ^ n)
      by (intros; apply Z.pow_pos_nonneg; lia).
    destruct s; simpl cond_Zopp.
    + f_equal. symmetry. destruct (0 <=? e) eqn:E.
      * apply Z.leb_le in E. apply Z.compare_lt_iff. pose proof (P e E). nia.
      * apply Z.leb_gt in E. apply Z.compare_lt_iff.
        pose proof (P (- e) ltac:(lia)). nia.
    + f_equal. destruct (Z.compare_spec e ek) as [Q|Q|Q].
      * subst e. destruct (0 <=? ek) eqn:E; [apply Z.leb_le in E; lia|].
        rewrite <- Hc. reflexivity.
      * destruct (0 <=? e) eqn:E; [apply Z.leb_le in E; lia|].
        symmetry. apply Z.compare_lt_iff.
        replace (- e) with ((- ek) + (ek - e)) by lia.
        rewrite Z.pow_add_r by lia. rewrite Z.mul_assoc, <- Hc.
        pose proof (two_le_pow (ek - e) ltac:(lia)). nia.
      * symmetry. specialize (Lo ltac:(lia)).
        destruct (0 <=? e) eqn:E; apply Z.compare_gt_iff.
        -- apply Z.leb_le in E. pose proof (P e E).
           pose proof (two_le_pow (- ek) ltac:(lia)). nia.
        -- apply Z.leb_gt in E.
           assert (Zpos c = k * 2 ^ (- e) * 2 ^ (e - ek)).
           { rewrite <- Z.mul_assoc, <- Z.pow_add_r by lia.
             replace (- e + (e - ek)) with (- ek) by lia. exact Hc. }
           pose proof (two_le_pow (e - ek) ltac:(lia)).
           pose proof (P (- e) ltac:(lia)). nia.
Qed.

Lemma compare_ten (x : number) :
  isDouble x -> isFinite x = true -> SFcompare x ten = exactCompare x 10.
Proof.
  intros V F. rewrite ten_value. apply compare_exact;
    [exact V|exact F|lia|lia|vm_compute; reflexivity
    |vm_compute; split; [discriminate|reflexivity]].
Qed.

Lemma compare_twenty (x : number) :
  isDouble x -> isFinite x = true -> SFcompare x twenty = exactCompare x 20.
Proof.
  intros V F. rewrite twenty_value. apply compare_exact;
    [exact V|exact F|lia|lia|vm_compute; reflexivity
    |vm_compute; split; [discriminate|reflexivity]].
Qed.

Lemma exactCompare_defined (x : number) (k : Z) :
  isFinite x = true -> exists c, exactCompare x k = Some c.
Proof. destruct x; simpl; intros H; try discriminate; eauto. Qed.

(** The tiers in the comparisons of doubles: for a finite score they are
    exhaustive and give 5, 3 and 1. *)
Lemma tiers_of_doubles (score : number) :
  isFinite score = true ->
  (lt score ten = true -> baseCreditsForScore score = 5)
  /\ (le ten score = true -> le score twenty = true ->
      baseCreditsForScore score = 3)
  /\ (lt twenty score = true -> baseCreditsForScore score = 1)
  /\ (lt score ten = true
      \/ (le ten score = true /\ le score twenty = true)
      \/ lt twenty score = true).
Proof.
  intros Hfin. pose proof (finite_not_nan score Hfin) as Hnan.
  assert (N10 : isNaN ten = false) by (rewrite ten_value; reflexivity).
  assert (N20 : isNaN twenty = false) by (rewrite twenty_value; reflexivity).
  unfold baseCreditsForScore.
  split; [intros H; rewrite H; reflexivity|].
  split.
  { intros H10 H20. rewrite (le_true_lt_false score ten H10), H20. reflexivity. }
  split.
  { intros H. rewrite (above_twenty_not_below_ten score H).
    rewrite (lt_true_le_false score twenty H). reflexivity. }
  destruct (lt score ten) eqn:A; [left; reflexivity|right].
  pose proof (lt_false_le score ten Hnan N10 A) as B.
  destruct (le score twenty) eqn:C; [left; split; [exact B|reflexivity]|right].
  destruct (lt twenty score) eqn:D; [reflexivity|].
  pose proof (lt_false_le twenty score N20 Hnan D). congruence.
Qed.

(** C2. For a finite score the base credits are 5 when its value is below
    10, 3 when it is from 10 to 20, both bounds included, and 1 when it is
    above 20, the tests [score < 10] and [score <= 20] of the code deciding
    exactly that; the bonus is 2 when there is a previous score and the
    score is strictly below it, and 0 otherwise. *)
Theorem credit_policy_tiers (score : number) (previousScore : option number) :
  isDouble score -> isFinite score = true ->
  ((lt score ten = true <-> exactlyBelow score 10)
   /\ (le score twenty = true <-> ~ exactlyAbove score 20))
  /\ (exactlyBelow score 10 -> baseCreditsForScore score = 5)
  /\ (~ exactlyBelow score 10 -> ~ exactlyAbove score 20 ->
      baseCreditsForScore score = 3)
  /\ (exactlyAbove score 20 -> baseCreditsForScore score = 1)
  /\ ((exists p, previousScore = Some p /\ lt score p = true) ->
      bonusCreditsFor score previousScore = 2)
  /\ (~ (exists p, previousScore = Some p /\ lt score p = true) ->
      bonusCreditsFor score previousScore = 0).
Proof.
  intros V Hfin.
  assert (L10 : lt score ten = true <-> exactlyBelow score 10).
  { unfold lt, SFltb, exactlyBelow. rewrite (compare_ten score V Hfin).
    destruct (exactCompare score 10) as [[]|]; split; congruence. }
  assert (L20 : le score twenty = true <-> ~ exactlyAbove score 20).
  { unfold le, SFleb, exactlyAbove. rewrite (compare_twenty score V Hfin).
    destruct (exactCompare_defined score 20 Hfin) as [c Hc]. rewrite Hc.
    destruct c; split; congruence. }
  assert (G20 : lt twenty score = true <-> exactlyAbove score 20).
  { unfold lt, SFltb, exactlyAbove.
    rewrite (SFcompare_antisym score twenty), (compare_twenty score V Hfin).
    destruct (exactCompare score 20) as [[]|]; simpl; split; congruence. }
  destruct (tiers_of_doubles score Hfin) as (T1 & T2 & T3 & _).
  split; [split; assumption|].
  split; [intros H; apply T1, L10, H|].
  split.
  { intros H10 H20. apply T2.
    - apply lt_false_le.
      + apply finite_not_nan. exact Hfin.
      + rewrite ten_value. reflexivity.
      + destruct (lt score ten) eqn:A; [|reflexivity].
        exfalso. apply H10, L10. reflexivity.
    - apply L20. exact H20. }
  split; [intros H; apply T3, G20, H|].
  unfold bonusCreditsFor. split.
  - intros (p & Hp & Hlt). rewrite Hp, Hlt. reflexivity.
  - intros H. destruct previousScore as [p|]; [|reflexivity].
    destruct (lt score p) eqn:E; [|reflexivity].
    exfalso. apply H. exists p. split; [reflexivity|exact E].
Qed.

Lemma credit_policy_tiers_witness :
  isDouble (ofZ 10) /\ isFinite (ofZ 10) = true
  /\ baseCreditsForScore (ofZ 10) = 3
  /\ bonusCreditsFor (ofZ 10) (Some (ofZ 12)) = 2.
Proof.
  assert (V : isDouble (ofZ 10)) by (vm_compute; reflexivity).
  assert (F : isFinite (ofZ 10) = true) by (vm_compute; reflexivity).
  pose proof (credit_policy_tiers (ofZ 10) (Some (ofZ 12)) V F)
    as (_ & _ & Hmid & _ & Hbonus & _).
  split; [exact V|]. split; [exact F|]. split.
  - apply Hmid; vm_compute; discriminate.
  - apply Hbonus. exists (ofZ 12). split; [reflexivity|vm_compute; reflexivity].
Defined.

(* ================================================================== *)
(** * Admin summary *)
(* ================================================================== *)

Lemma existsb_eqb_In (x : string) (l : list string) :
  existsb (String.eqb x) l = true <-> In x l.
Proof.
  rewrite existsb_exists. split.
  - intros (y & Hy & E). apply String.eqb_eq in E. subst y. exact Hy.
  - intros H. exists x. split; [exact H|apply String.eqb_refl].
Qed.

Lemma setAddAll_In (x : string) (items set : list string) :
  In x (setAddAll items set) <-> In x items \/ In x set.
Proof.
  revert set. induction items as [|y items IH]; intros set; simpl.
  - tauto.
  - rewrite IH. destruct (existsb (String.eqb y) set) eqn:E.
    + apply existsb_eqb_In in E. split; [tauto|].
      intros [[H|H]|H]; subst; tauto.
    + rewrite in_app_iff. simpl. tauto.
Qed.

Lemma findWallet_absent (u : string) (ws : list Wallet.doc) :
  ~ In u (map Wallet.user ws) -> findWallet u ws = None.
Proof.
  intros H. unfold findWallet.
  destruct (find (fun w => String.eqb (Wallet.user w) u) ws) as [w|] eqn:F;
    [|reflexivity].
  apply find_some in F. destruct F as [Hin E]. apply String.eqb_eq in E.
  exfalso. apply H. rewrite <- E. apply in_map. exact Hin.
Qed.

Lemma averageMapGet_absent (u : string) (averages : list Average.t) :
  ~ In u (map Average._id averages) -> averageMapGet averages u = None.
Proof.
  intros H. unfold averageMapGet.
  destruct (find (fun a => String.eqb (Average._id a) u) (rev averages))
    as [a|] eqn:F; [|reflexivity].
  apply find_some in F. destruct F as [Hin E]. apply String.eqb_eq in E.
  exfalso. apply H. rewrite <- E. apply in_map. apply in_rev. exact Hin.
Qed.

Lemma employees_users (ws : list Wallet.doc) (averages : list Average.t) :
  map Employee.user (employees (summarize ws averages))
  = setAddAll (map Wallet.user ws ++ map Average._id averages) [].
Proof.
  unfold summarize. simpl. rewrite map_map. simpl. apply map_id.
Qed.

Lemma employees_joined (ws : list Wallet.doc) (averages : list Average.t)
    (e : Employee.t) :
  In e (employees (summarize ws averages)) ->
  e = employeeOf ws averages (Employee.user e).
Proof.
  unfold summarize. simpl. intros H. apply in_map_iff in H.
  destruct H as (u & E & _). subst e. reflexivity.
Qed.




Lemma averageMapGet_In (averages : list Average.t) (u : string) (a : Average.t) :
  averageMapGet averages u = Some a -> In a averages /\ Average._id a = u.
Proof.
  unfold averageMapGet. intros H. apply find_some in H.
  destruct H as [Hin E]. apply String.eqb_eq in E.
  split; [apply in_rev; exact Hin|exact E].
Qed.

(** C10. A user whose footprint average is exactly 0 is listed in the
    admin summary with no average score, as a user without any record is,
    and adds 0 to the sum behind the organization average. *)
Theorem zero_average_reported_as_none
    (ws : list Wallet.doc) (averages : list Average.t) (a : Average.t)
    (sign : bool) :
  averageMapGet averages (Average._id a) = Some a ->
  Average.averageScore a = Some (S754_zero sign) ->
  (exists e,
      In e (employees (summarize ws averages))
      /\ Employee.user e = Average._id a
      /\ Employee.entries e = orZero (Average.entries a))
  /\ (forall e,
        In e (employees (summarize ws averages)) ->
        Employee.user e = Average._id a ->
        Employee.averageScore e = None)
  /\ (forall u e,
        ~ In u (map Average._id averages) ->
        In e (employees (summarize ws averages)) ->
        Employee.user e = u ->
        Employee.averageScore e = None)
  /\ averageOrZero a = ofZ 0.
Proof.
  intros Hget Hzero.
  assert (Hscore : Employee.averageScore
                     (employeeOf ws averages (Average._id a)) = None).
  { unfold employeeOf. rewrite Hget. simpl. rewrite Hzero. reflexivity. }
  split; [|split; [|split]].
  - exists (employeeOf ws averages (Average._id a)). split.
    + unfold summarize. simpl. apply in_map.
      apply setAddAll_In. left. apply in_or_app. right.
      apply in_map. apply (averageMapGet_In _ _ _ Hget).
    + split; [reflexivity|].
      unfold employeeOf. rewrite Hget. reflexivity.
  - intros e He Hu. rewrite (employees_joined _ _ e He), Hu. exact Hscore.
  - intros u e Hno He Hu. rewrite (employees_joined _ _ e He), Hu.
    unfold employeeOf. rewrite averageMapGet_absent by exact Hno. reflexivity.
  - unfold averageOrZero. rewrite Hzero. reflexivity.
Qed.

Lemma zero_average_reported_as_none_witness :
  (forall e,
      In e (employees (summarize (wallets sampleStore) zeroAverages)) ->
      Employee.user e = "a@x.com" ->
      Employee.averageScore e = None)
  /\ averageOrZero (Average.mk "a@x.com" (Some (ofZ 0)) 2) = ofZ 0.
Proof.
  destruct (zero_average_reported_as_none (wallets sampleStore) zeroAverages
              (Average.mk "a@x.com" (Some (ofZ 0)) 2) false)
    as (_ & Hnone & _ & Hsum).
  - reflexivity.
  - reflexivity.
  - split; [exact Hnone|exact Hsum].
Defined.

(* ================================================================== *)
(** * Further properties of the ledger *)
(* ================================================================== *)

Lemma base_values (n : number) :
  baseCreditsForScore n = 5 \/ baseCreditsForScore n = 3
  \/ baseCreditsForScore n = 1.
Proof.
  unfold baseCreditsForScore.
  destruct (lt n ten); [auto|]. destruct (le n twenty); auto.
Qed.

Lemma run_app (rs more : list (request * clock)) (s : store) :
  run (rs ++ more) s = run more (run rs s).
Proof.
  revert s. induction rs as [|[r now] rs IH]; intros s; simpl;
    [reflexivity|apply IH].
Qed.

(** X1. No request lowers a balance: after any sequence of requests every
    user's balance is at least what it was, and an accepted award raises
    the balance of its user by at least 1 and at most 7. *)
Theorem balances_never_decrease
    (rs : list (request * clock)) (s : store) (v : string) :
  balance v (wallets s) <= balance v (wallets (run rs s))
  /\ forall (u : string) (score : value) (date : option string) (now : clock),
       u <> "" -> isNaN (ToNumber score) = false ->
       let s' := snd (awardCreditsForFootprint (Some u) score date now s) in
       balance u (wallets s) + 1 <= balance u (wallets s')
       <= balance u (wallets s) + 7.
Proof.
  split.
  - revert s. induction rs as [|[r now] rs IH]; intros s; simpl; [lia|].
    eapply Z.le_trans; [|apply IH].
    destruct (handle_ledger r now s) as [Hw _|u Hw _|u n label prev Hw _];
      rewrite Hw.
    + lia.
    + rewrite balance_ensured. lia.
    + destruct (String.eqb v u) eqn:E.
      * apply String.eqb_eq in E. subst v. rewrite balance_credited_same.
        destruct (base_values n) as [B|[B|B]], (bonus_values n prev) as [C|C];
          lia.
      * apply String.eqb_neq in E. rewrite balance_credited_other by exact E.
        lia.
  - intros u score date now Hu Hn s'. unfold s'.
    rewrite award_accepted by assumption. simpl snd.
    unfold awardedStore, summaryOf. simpl wallets. simpl totalAwarded.
    rewrite balance_credited_same.
    destruct (base_values (ToNumber score)) as [B|[B|B]];
      destruct (bonus_values (ToNumber score)
                  (previousScoreIn (footprints s) u (dateOrToday date now)))
        as [C|C]; lia.
Qed.

Lemma balances_never_decrease_witness :
  balance "a@x.com" (wallets emptyStore) + 1
  <= balance "a@x.com"
       (wallets (snd (awardCreditsForFootprint (Some "a@x.com") (VNum (ofZ 8))
                        None sampleClock emptyStore)))
  <= balance "a@x.com" (wallets emptyStore) + 7.
Proof.
  apply (proj2 (balances_never_decrease [] emptyStore "a@x.com")).
  - discriminate.
  - reflexivity.
Defined.

Lemma saveWallet_users (w : Wallet.doc) (ws : list Wallet.doc) :
  map Wallet.user (saveWallet w ws) = map Wallet.user ws.
Proof.
  induction ws as [|x ws IH]; simpl; [reflexivity|].
  destruct (String.eqb (Wallet.user x) (Wallet.user w)) eqn:E; simpl.
  - apply String.eqb_eq in E. rewrite E. reflexivity.
  - rewrite IH. reflexivity.
Qed.

Lemma findWallet_none_absent (u : string) (ws : list Wallet.doc) :
  findWallet u ws = None -> ~ In u (map Wallet.user ws).
Proof.
  intros H Hin. apply in_map_iff in Hin. destruct Hin as (w & E & Hw).
  pose proof (find_none _ _ H w Hw) as F. simpl in F.
  rewrite E, String.eqb_refl in F. discriminate.
Qed.

(** The users of the wallets after a request: those before, and at most
    one more, who had none. *)
Lemma handle_wallet_users (r : request) (now : clock) (s : store) :
  map Wallet.user (wallets (snd (handle r now s))) = map Wallet.user (wallets s)
  \/ exists u,
       ~ In u (map Wallet.user (wallets s))
       /\ map Wallet.user (wallets (snd (handle r now s)))
          = map Wallet.user (wallets s) ++ [u].
Proof.
  assert (E : forall u,
             map Wallet.user (ensuredWallets u now (wallets s))
             = map Wallet.user (wallets s)
             \/ (~ In u (map Wallet.user (wallets s))
                 /\ map Wallet.user (ensuredWallets u now (wallets s))
                    = map Wallet.user (wallets s) ++ [u])).
  { intros u. unfold ensuredWallets.
    destruct (findWallet u (wallets s)) eqn:F; [left; reflexivity|right].
    split; [apply findWallet_none_absent; exact F|].
    rewrite map_app. reflexivity. }
  destruct (handle_ledger r now s) as [Hw _|u Hw _|u n label prev Hw _];
    rewrite Hw.
  - left. reflexivity.
  - destruct (E u) as [H|H]; [left; exact H|right; exists u; exact H].
  - unfold creditedWallets. rewrite saveWallet_users.
    destruct (E u) as [H|H]; [left; exact H|right; exists u; exact H].
Qed.

(** X2. Wallets are never removed and never doubled: after any sequence
    of requests the wallets of a store without two wallets of one user
    still have distinct users, and the users that had a wallet still have
    one, in the same order. *)
Theorem wallets_persist_and_stay_unique
    (rs : list (request * clock)) (s : store) :
  walletsUnique s ->
  walletsUnique (run rs s)
  /\ exists added,
       map Wallet.user (wallets (run rs s))
       = map Wallet.user (wallets s) ++ added.
Proof.
  revert s. induction rs as [|[r now] rs IH]; intros s U; simpl.
  - split; [exact U|]. exists []. rewrite app_nil_r. reflexivity.
  - assert (U' : walletsUnique (snd (handle r now s))).
    { unfold walletsUnique in *.
      destruct (handle_wallet_users r now s) as [H|(u & Hu & H)]; rewrite H.
      - exact U.
      - apply NoDup_app; [exact U|repeat constructor; intros []|].
        intros a Ha [Hin|[]]. subst a. contradiction. }
    destruct (IH _ U') as [Hu (added & Ha)]. split; [exact Hu|].
    rewrite Ha.
    destruct (handle_wallet_users r now s) as [H|(u & _ & H)]; rewrite H.
    + exists added. reflexivity.
    + exists (u :: added). rewrite <- app_assoc. reflexivity.
Qed.

Lemma wallets_persist_and_stay_unique_witness :
  walletsUnique emptyStore
  /\ walletsUnique
       (run [(PostFootprint sampleBody, sampleClock);
             (GetWallet "b@x.com", sampleClock);
             (GetWallet "a@x.com", sampleClock)] emptyStore).
Proof.
  assert (U : walletsUnique emptyStore) by constructor.
  split; [exact U|].
  exact (proj1 (wallets_persist_and_stay_unique _ emptyStore U)).
Defined.

Lemma awarded_typed (u : string) (n : number) (label : string)
    (prev : option number) (now : clock) :
  Forall (fun t => wellTyped t = true) (awardedTransactions u n label prev now).
Proof.
  unfold awardedTransactions. constructor.
  - unfold wellTyped. simpl.
    destruct (base_values n) as [B|[B|B]]; rewrite B; reflexivity.
  - destruct (bonus_values n prev) as [C|C]; rewrite C; simpl;
      repeat constructor.
Qed.

(** X3. The transaction ledger is append-only and well typed: no sequence
    of requests changes or removes a recorded transaction, and when every
    recorded [earn] carries 5, 3 or 1 credits and every [bonus] 2, so does
    every transaction after it. *)
Theorem ledger_is_append_only (rs : list (request * clock)) (s : store) :
  (exists added, transactions (run rs s) = transactions s ++ added)
  /\ (transactionsTyped s -> transactionsTyped (run rs s)).
Proof.
  revert s. induction rs as [|[r now] rs IH]; intros s; simpl.
  - split; [exists []; rewrite app_nil_r; reflexivity|trivial].
  - destruct (IH (snd (handle r now s))) as [(added & Ha) Ht].
    assert (Step : exists more,
               transactions (snd (handle r now s)) = transactions s ++ more
               /\ Forall (fun t => wellTyped t = true) more).
    { destruct (handle_ledger r now s) as [_ H|u _ H|u n label prev _ H];
        rewrite H.
      - exists []. rewrite app_nil_r. split; [reflexivity|constructor].
      - exists []. rewrite app_nil_r. split; [reflexivity|constructor].
      - eexists. split; [reflexivity|apply awarded_typed]. }
    destruct Step as (more & Hm & Hty). split.
    + exists (more ++ added). rewrite Ha, Hm, app_assoc. reflexivity.
    + intros T. apply Ht. unfold transactionsTyped in *. rewrite Hm.
      apply Forall_app. split; assumption.
Qed.

Lemma ledger_is_append_only_witness :
  transactionsTyped emptyStore
  /\ transactionsTyped
       (run [(PostFootprint sampleBody, sampleClock);
             (PostFootprint (Body.set_date (Some "2024-01-02") sampleBody),
              sampleClock)] emptyStore).
Proof.
  assert (T : transactionsTyped emptyStore) by constructor.
  split; [exact T|].
  exact (proj2 (ledger_is_append_only _ emptyStore) T).
Defined.

(* ================================================================== *)
(** * The previous score *)
(* ================================================================== *)

Lemma string_compare_lt_trans (a b c : string) :
  String.compare a b = Lt -> String.compare b c = Lt -> String.compare a c = Lt.
Proof.
  revert b c. induction a as [|x a IH]; intros [|y b] [|z c]; simpl;
    try discriminate; try reflexivity.
  destruct (Ascii.compare x y) eqn:XY; try discriminate;
    destruct (Ascii.compare y z) eqn:YZ; try discriminate; intros H1 H2.
  - apply Ascii.compare_eq_iff in XY. apply Ascii.compare_eq_iff in YZ.
    subst. pose proof (Ascii.compare_antisym z z) as A.
    destruct (Ascii.compare z z); simpl in A; try discriminate.
    eapply IH; eassumption.
  - apply Ascii.compare_eq_iff in XY. subst. rewrite YZ. reflexivity.
  - apply Ascii.compare_eq_iff in YZ. subst. rewrite XY. reflexivity.
  - unfold Ascii.compare in *. rewrite N.compare_lt_iff in *.
    assert (L : (N_of_ascii x < N_of_ascii z)%N) by lia.
    apply N.compare_lt_iff in L. rewrite L. reflexivity.
Qed.

Lemma string_ltb_trans (a b c : string) :
  String.ltb a b = true -> String.ltb b c = true -> String.ltb a c = true.
Proof.
  unfold String.ltb.
  destruct (String.compare a b) eqn:AB; try discriminate.
  destruct (String.compare b c) eqn:BC; try discriminate.
  rewrite (string_compare_lt_trans a b c AB BC). reflexivity.
Qed.

(** Not before [b], and before [c]: then [b] is before [c]. *)
Lemma string_ltb_false_trans (a b c : string) :
  String.ltb a b = false -> String.ltb a c = true -> String.ltb b c = true.
Proof.
  intros H1 H2. unfold String.ltb in H1.
  pose proof (String.compare_antisym a b) as A.
  destruct (String.compare a b) eqn:AB; try discriminate.
  - apply String.compare_eq_iff in AB. subst. exact H2.
  - apply (string_ltb_trans b a c); [|exact H2].
    unfold String.ltb.
    destruct (String.compare b a); simpl in A; try discriminate. reflexivity.
Qed.

Lemma fold_laterOf (cs : list Footprint.doc) (best : option Footprint.doc) :
  match fold_left laterOf cs best with
  | None => best = None /\ cs = []
  | Some p =>
      (best = Some p \/ In p cs)
      /\ (forall b, best = Some b ->
            String.ltb (Footprint.date p) (Footprint.date b) = false)
      /\ (forall x, In x cs ->
            String.ltb (Footprint.date p) (Footprint.date x) = false)
  end.
Proof.
  revert best. induction cs as [|x cs IH]; intros best; simpl.
  - destruct best as [b|]; [|auto].
    split; [left; reflexivity|]. split; [|intros ? []].
    intros b' E. inversion E. apply string_ltb_irrefl.
  - specialize (IH (laterOf best x)).
    destruct (fold_left laterOf cs (laterOf best x)) as [p|].
    + destruct IH as (Hin & Hbest & Hall).
      assert (Hx : String.ltb (Footprint.date p) (Footprint.date x) = false
                   /\ forall b, best = Some b ->
                        String.ltb (Footprint.date p) (Footprint.date b) = false).
      { unfold laterOf in Hbest. destruct best as [b|].
        - destruct (String.ltb (Footprint.date b) (Footprint.date x)) eqn:L.
          + pose proof (Hbest x eq_refl) as Px. split; [exact Px|].
            intros b' E. inversion E. subst b'.
            destruct (String.ltb (Footprint.date p) (Footprint.date b)) eqn:Q;
              [|reflexivity].
            rewrite (string_ltb_trans _ _ _ Q L) in Px. discriminate.
          + pose proof (Hbest b eq_refl) as Pb. split.
            * destruct (String.ltb (Footprint.date p) (Footprint.date x)) eqn:Q;
                [|reflexivity].
              rewrite (string_ltb_false_trans _ _ _ Pb Q) in L. discriminate.
            * intros b' E. inversion E. subst b'. exact Pb.
        - split; [exact (Hbest x eq_refl)|intros b E; discriminate]. }
      destruct Hx as [Hx Hb]. split; [|split].
      * destruct Hin as [E|Hin]; [|right; right; exact Hin].
        unfold laterOf in E. destruct best as [b|].
        -- destruct (String.ltb (Footprint.date b) (Footprint.date x));
             inversion E; subst; [right; left; reflexivity|left; reflexivity].
        -- inversion E. right. left. reflexivity.
      * exact Hb.
      * intros y [E|Hy]; [subst y; exact Hx|apply Hall; exact Hy].
    + destruct IH as [E _]. unfold laterOf in E. destruct best as [b|];
        [destruct (String.ltb _ _)|]; discriminate.
Qed.

(** X4. The previous score of an award is read from the latest record of
    the user strictly before the award's date, however long before: a
    record is found exactly when the user has one before that date, and no
    other such record of the user is later.  With no earlier record, or
    one without a numeric total score, there is no previous score and no
    bonus. *)
Theorem previous_is_latest_earlier
    (u d : string) (fs : list Footprint.doc) (n : number) :
  match findPrevious u d fs with
  | Some p =>
      In p fs /\ Footprint.user p = u
      /\ String.ltb (Footprint.date p) d = true
      /\ (forall f, In f fs -> Footprint.user f = u ->
            String.ltb (Footprint.date f) d = true ->
            String.ltb (Footprint.date p) (Footprint.date f) = false)
      /\ previousScoreIn fs u d
         = match Footprint.total_score p with VNum x => Some x | _ => None end
  | None =>
      (forall f, In f fs -> Footprint.user f = u ->
         String.ltb (Footprint.date f) d = false)
      /\ previousScoreIn fs u d = None
      /\ bonusCreditsFor n (previousScoreIn fs u d) = 0
  end.
Proof.
  unfold previousScoreIn, findPrevious.
  pose proof (fold_laterOf
                (filter (fun f => String.eqb (Footprint.user f) u
                                  && String.ltb (Footprint.date f) d) fs) None)
    as H.
  destruct (fold_left laterOf _ None) as [p|].
  - destruct H as (Hin & _ & Hall).
    destruct Hin as [E|Hin]; [discriminate|].
    apply filter_In in Hin. destruct Hin as [Hin Hp].
    apply andb_prop in Hp. destruct Hp as [Hu Hd].
    apply String.eqb_eq in Hu.
    repeat split; try assumption.
    intros f Hf Hfu Hfd. apply Hall. apply filter_In. split; [exact Hf|].
    rewrite Hfu, String.eqb_refl, Hfd. reflexivity.
  - destruct H as [_ Hnil]. split; [|split; reflexivity].
    intros f Hf Hfu.
    destruct (String.ltb (Footprint.date f) d) eqn:L; [|reflexivity].
    assert (Hin : In f (filter (fun f => String.eqb (Footprint.user f) u
                                  && String.ltb (Footprint.date f) d) fs)).
    { apply filter_In. split; [exact Hf|].
      rewrite Hfu, String.eqb_refl, L. reflexivity. }
    rewrite Hnil in Hin. destruct Hin.
Qed.

(* ================================================================== *)
(** * Order of scores and sign of emissions *)
(* ================================================================== *)

Ltac compare_cases :=
  repeat match goal with
    | H : context [Z.compare ?a ?b] |- _ =>
        destruct (Z.compare_spec a b); try discriminate
    | |- context [Z.compare ?a ?b] =>
        destruct (Z.compare_spec a b); try discriminate
    | H : context [Pos.compare_cont Eq ?a ?b] |- _ =>
        change (Pos.compare_cont Eq a b) with (Pos.compare a b) in *;
        destruct (Pos.compare_spec a b); try discriminate
    | |- context [Pos.compare_cont Eq ?a ?b] =>
        change (Pos.compare_cont Eq a b) with (Pos.compare a b) in *;
        destruct (Pos.compare_spec a b); try discriminate
    end.

(** At most [y], and [y] below a positive bound: below the bound. *)
Lemma le_lt_bound (x y : number) (c : positive) (e : Z) :
  le x y = true -> lt y (S754_finite false c e) = true ->
  lt x (S754_finite false c e) = true.
Proof.
  unfold le, lt, SFleb, SFltb.
  destruct x as [sx|sx| |sx mx ex], y as [sy|sy| |sy my ey];
    cbn [SFcompare]; try discriminate; try reflexivity;
    try destruct sx; try destruct sy; try discriminate; try reflexivity;
    intros H1 H2; compare_cases; simpl in *; try discriminate;
    try reflexivity; try lia.
Qed.

Lemma le_le_bound (x y : number) (c : positive) (e : Z) :
  le x y = true -> le y (S754_finite false c e) = true ->
  le x (S754_finite false c e) = true.
Proof.
  unfold le, SFleb.
  destruct x as [sx|sx| |sx mx ex], y as [sy|sy| |sy my ey];
    cbn [SFcompare]; try discriminate; try reflexivity;
    try destruct sx; try destruct sy; try discriminate; try reflexivity;
    intros H1 H2; compare_cases; simpl in *; try discriminate;
    try reflexivity; try lia.
Qed.

(** X5. A lower score never earns fewer base credits: when [x <= y] as
    doubles, the base credits of [y] are at most those of [x]. *)
Theorem lower_score_earns_no_less (x y : number) :
  le x y = true -> baseCreditsForScore y <= baseCreditsForScore x.
Proof.
  intros H. unfold baseCreditsForScore.
  destruct (lt y ten) eqn:A.
  - rewrite ten_value in A |- *. rewrite (le_lt_bound x y _ _ H A). lia.
  - destruct (lt x ten); [destruct (le y twenty); lia|].
    destruct (le y twenty) eqn:B.
    + rewrite twenty_value in B |- *. rewrite (le_le_bound x y _ _ H B). lia.
    + destruct (le x twenty); lia.
Qed.

Lemma lower_score_earns_no_less_witness :
  le (ofZ 8) (ofZ 12) = true
  /\ baseCreditsForScore (ofZ 12) <= baseCreditsForScore (ofZ 8).
Proof.
  assert (H : le (ofZ 8) (ofZ 12) = true) by (vm_compute; reflexivity).
  split; [exact H|exact (lower_score_earns_no_less _ _ H)].
Defined.

Lemma notNegative_signOk (x : number) : notNegative x <-> signOk x = true.
Proof.
  unfold notNegative, lt, SFltb.
  replace (ofZ 0) with (S754_zero false) by reflexivity.
  destruct x as [s|s| |s m e]; simpl; try destruct s; simpl;
    split; congruence.
Qed.

Lemma round_aux_sign (m e : Z) (l : location) :
  signOk (binary_round_aux prec emax false m e l) = true.
Proof.
  unfold binary_round_aux.
  destruct (shr_fexp prec emax m e l) as [mrs e'].
  destruct (shr_fexp prec emax _ e' loc_Exact) as [mrs' e''].
  destruct (shr_m mrs'); [reflexivity| |reflexivity].
  destruct (e'' <=? emax - prec); reflexivity.
Qed.

Lemma mul_signOk (a b : number) :
  signOk a = true -> signOk b = true -> signOk (mul a b) = true.
Proof.
  unfold mul.
  destruct a as [sa|sa| |sa ma ea], b as [sb|sb| |sb mb eb];
    try destruct sa; try destruct sb; simpl; try discriminate;
    try reflexivity; intros _ _; apply round_aux_sign.
Qed.

Lemma div_signOk (a : number) (m : positive) (e : Z) :
  signOk a = true -> signOk (div a (S754_finite false m e)) = true.
Proof.
  unfold div.
  destruct a as [sa|sa| |sa ma ea]; try destruct sa; simpl;
    try discriminate; try reflexivity; intros _.
  destruct (SFdiv_core_binary prec emax (Z.pos ma) ea (Z.pos m) e)
    as [[mz ez] lz].
  apply round_aux_sign.
Qed.

Lemma add_signOk (a b : number) :
  signOk a = true -> signOk b = true -> signOk (add a b) = true.
Proof.
  unfold add.
  destruct a as [sa|sa| |sa ma ea], b as [sb|sb| |sb mb eb];
    try destruct sa; try destruct sb; simpl; try discriminate;
    try reflexivity; intros _ _.
  unfold binary_round.
  destruct (shl_align _ _ _) as [mz ez]. apply round_aux_sign.
Qed.

Lemma thirty_value : thirty = S754_finite false 8444249301319680 (-48).
Proof. vm_compute. reflexivity. Qed.

Lemma orNumber_signOk (t : table) (v : value) :
  forallb (fun e => signOk (snd e)) t = true ->
  signOk (orNumber (tableGet t v) (ofZ 0)) = true.
Proof.
  intros H. unfold orNumber, tableGet.
  destruct v as [| |b|n|name]; try reflexivity.
  destruct (find (fun e => String.eqb (fst e) name) t) as [e|] eqn:F;
    [|reflexivity].
  apply find_some in F. destruct F as [Hin _].
  rewrite forallb_forall in H. specialize (H e Hin).
  destruct (truthy (snd e)); [exact H|reflexivity].
Qed.

Lemma toFixedNumber_signOk (digits : Z) (x : number) :
  signOk x = true -> signOk (toFixedNumber digits x) = true.
Proof.
  unfold toFixedNumber.
  destruct x as [s|s| |s m e]; try (intros H; exact H || reflexivity).
  destruct s; [discriminate|intros _].
  destruct (magnitudeGe m e (10 ^ 21)); [reflexivity|].
  destruct (scaledNearest m e (10 ^ digits)); try reflexivity.
  unfold nearest. apply (div_signOk (S754_finite false p 0)). reflexivity.
Qed.

(** X6. Emissions are never negative for inputs that are not: when the
    distance and the two usages, read as numbers, are not below zero, none
    of travel, food, energy and total is below zero, and neither is any of
    them rounded to two decimals as the routes store it. *)
Theorem emissions_are_not_negative (payload : Body.t) :
  notNegative (numericInput (Body.distance_daily payload)) ->
  notNegative (numericInput (Body.electricity_usage payload)) ->
  notNegative (numericInput (Body.gas_usage payload)) ->
  let e := deriveEmissions payload in
  (notNegative (travel e) /\ notNegative (food e)
   /\ notNegative (energy e) /\ notNegative (total e))
  /\ (notNegative (toFixedNumber 2 (travel e))
      /\ notNegative (toFixedNumber 2 (food e))
      /\ notNegative (toFixedNumber 2 (energy e))
      /\ notNegative (toFixedNumber 2 (total e))).
Proof.
  rewrite !notNegative_signOk. intros Hd He Hg e.
  assert (T : signOk (travel e) = true).
  { apply mul_signOk; [|exact Hd].
    apply orNumber_signOk. vm_compute. reflexivity. }
  assert (F : signOk (food e) = true).
  { apply orNumber_signOk. vm_compute. reflexivity. }
  assert (E : signOk (energy e) = true).
  { unfold e, deriveEmissions. cbn [energy]. rewrite thirty_value.
    apply add_signOk; apply mul_signOk.
    - apply div_signOk. exact He.
    - vm_compute. reflexivity.
    - apply div_signOk. exact Hg.
    - vm_compute. reflexivity. }
  assert (S : signOk (total e) = true).
  { unfold e, deriveEmissions. cbn [total].
    apply add_signOk; [apply add_signOk|]; assumption. }
  rewrite !notNegative_signOk.
  repeat split; try assumption; apply toFixedNumber_signOk; assumption.
Qed.

Lemma emissions_are_not_negative_witness :
  notNegative (total (deriveEmissions sampleBody))
  /\ notNegative (toFixedNumber 2 (total (deriveEmissions sampleBody))).
Proof.
  destruct (emissions_are_not_negative sampleBody) as [(_ & _ & _ & H) (_ & _ & _ & R)];
    try (vm_compute; reflexivity).
  split; assumption.
Defined.

(* ================================================================== *)
(** * Further properties of the footprint ledger *)
(* ================================================================== *)









(* ================================================================== *)
(** * Updates *)
(* ================================================================== *)





Lemma put_run (id : nat) (updates : Body.t) (s : store) (d : Footprint.doc) :
  findById id (footprints s) = Some d ->
  let d' := applyUpdates d (recomputeEmissions updates) in
  put_api_footprints id updates s
  = (inr (FootprintUpdated d'),
     setFootprints (replaceById d' (footprints s)) (nextId s) s).
Proof.
  intros Hf d'.
  unfold put_api_footprints, findByIdAndUpdate, tryCatch, bind, gets,
    modify, ret. rewrite Hf. reflexivity.
Qed.


Lemma replaceById_split (d d' : Footprint.doc) (fs : list Footprint.doc) :
  findById (Footprint._id d') fs = Some d ->
  exists l1 l2, fs = l1 ++ d :: l2 /\ replaceById d' fs = l1 ++ d' :: l2.
Proof.
  unfold findById.
  induction fs as [|f fs IH]; simpl; [discriminate|].
  destruct (Nat.eqb (Footprint._id f) (Footprint._id d')) eqn:E.
  - intros H. inversion H. subst f. exists [], fs. split; reflexivity.
  - intros H. destruct (IH H) as (l1 & l2 & E1 & E2).
    exists (f :: l1), l2. simpl. rewrite <- E1, E2. split; reflexivity.
Qed.

(** X10. An update does not check the one-per-day rule: moving a record
    to the user and the day of another record succeeds and leaves two
    records for that user and day. *)
Theorem update_can_duplicate_a_day
    (id : nat) (s : store) (d f : Footprint.doc) :
  findById id (footprints s) = Some d ->
  In f (footprints s) -> Footprint._id f <> id ->
  let s1 := snd (put_api_footprints id (moveTo f) s) in
  (exists d',
      fst (put_api_footprints id (moveTo f) s) = inr (FootprintUpdated d')
      /\ In d' (footprints s1) /\ In f (footprints s1)
      /\ Footprint._id d' = id /\ dayKey d' = dayKey f)
  /\ ~ onePerDay s1.
Proof.
  intros Hf Hin Hid s1. unfold s1.
  rewrite (put_run id (moveTo f) s d Hf). simpl fst. simpl snd.
  set (d' := applyUpdates d (recomputeEmissions (moveTo f))).
  pose proof (findById_id _ _ _ Hf) as Hd.
  assert (Hf' : findById (Footprint._id d') (footprints s) = Some d)
    by (change (Footprint._id d') with (Footprint._id d); rewrite Hd; exact Hf).
  destruct (replaceById_split d d' (footprints s) Hf') as (l1 & l2 & E1 & E2).
  assert (Hf2 : In f (l1 ++ l2)).
  { rewrite E1 in Hin. apply in_app_or in Hin. apply in_or_app.
    destruct Hin as [H|[H|H]]; [left; exact H| |right; exact H].
    subst f. contradiction. }
  assert (K : dayKey d' = dayKey f) by reflexivity.
  simpl footprints. rewrite E2. split.
  - exists d'. split; [reflexivity|]. split; [apply in_elt|].
    split; [|split; [exact Hd|exact K]].
    apply in_app_or in Hf2. apply in_or_app.
    destruct Hf2 as [H|H]; [left; exact H|right; right; exact H].
  - unfold onePerDay. simpl footprints. rewrite map_app. simpl.
    intros N. apply NoDup_remove_2 in N. apply N.
    rewrite K, <- map_app. apply in_map. exact Hf2.
Qed.

Lemma update_can_duplicate_a_day_witness :
  onePerDay twoDayStore
  /\ ~ onePerDay (snd (put_api_footprints 1 (moveTo sampleRecord) twoDayStore)).
Proof.
  split.
  - unfold onePerDay. vm_compute. repeat constructor; simpl; intuition discriminate.
  - destruct (findById 1 (footprints twoDayStore)) as [d|] eqn:Hf;
      [|vm_compute in Hf; discriminate].
    apply (update_can_duplicate_a_day 1 twoDayStore d sampleRecord Hf).
    + vm_compute. left. reflexivity.
    + vm_compute. discriminate.
Defined.






(* ================================================================== *)
(** * The wallet view *)
(* ================================================================== *)

Lemma sumAmounts_cons (t : CreditTransaction.doc) (ts : list CreditTransaction.doc) :
  sumAmounts (t :: ts) = CreditTransaction.amount t + sumAmounts ts.
Proof.
  unfold sumAmounts at 1. simpl. rewrite sumAmounts_from. reflexivity.
Qed.

Lemma wellTyped_positive (t : CreditTransaction.doc) :
  wellTyped t = true -> 0 < CreditTransaction.amount t.
Proof.
  unfold wellTyped. destruct (CreditTransaction.type t); intros H.
  - apply orb_prop in H. destruct H as [H|H];
      [apply orb_prop in H; destruct H as [H|H]|]; apply Z.eqb_eq in H; lia.
  - apply Z.eqb_eq in H. lia.
Qed.

Lemma sum_filter_le (p q : CreditTransaction.doc -> bool)
    (ts : list CreditTransaction.doc) :
  Forall (fun t => wellTyped t = true) ts ->
  (forall t, p t = true -> q t = true) ->
  0 <= sumAmounts (filter p ts) <= sumAmounts (filter q ts).
Proof.
  intros T Hpq. induction T as [|t ts Ht T IH]; simpl.
  - unfold sumAmounts. simpl. lia.
  - pose proof (wellTyped_positive t Ht) as P.
    destruct (p t) eqn:E.
    + rewrite (Hpq t E), !sumAmounts_cons. lia.
    + destruct (q t); [rewrite sumAmounts_cons|]; lia.
Qed.

Lemma insertByDate_In (x t : CreditTransaction.doc)
    (l : list CreditTransaction.doc) :
  In x (insertByDate t l) <-> x = t \/ In x l.
Proof.
  induction l as [|y l IH]; simpl; [intuition|].
  destruct (CreditTransaction.date t <? CreditTransaction.date y); simpl;
    [rewrite IH|]; intuition.
Qed.

Lemma insertByDate_length (t : CreditTransaction.doc)
    (l : list CreditTransaction.doc) :
  List.length (insertByDate t l) = S (List.length l).
Proof.
  induction l as [|y l IH]; simpl; [reflexivity|].
  destruct (CreditTransaction.date t <? CreditTransaction.date y); simpl;
    [rewrite IH|]; reflexivity.
Qed.

Lemma insertByDate_sorted (t : CreditTransaction.doc)
    (l : list CreditTransaction.doc) :
  StronglySorted newerFirst l -> StronglySorted newerFirst (insertByDate t l).
Proof.
  intros S. induction S as [|y l S IH F]; simpl.
  - repeat constructor.
  - destruct (CreditTransaction.date t <? CreditTransaction.date y) eqn:E.
    + apply Z.ltb_lt in E. constructor; [exact IH|].
      apply Forall_forall. intros x Hx. apply insertByDate_In in Hx.
      destruct Hx as [Hx|Hx]; [subst x; unfold newerFirst; lia|].
      rewrite Forall_forall in F. apply F. exact Hx.
    + apply Z.ltb_ge in E. constructor; [constructor; assumption|].
      constructor; [exact E|].
      rewrite Forall_forall in *. intros x Hx. specialize (F x Hx).
      unfold newerFirst in *. lia.
Qed.

Lemma sortByDateDesc_spec (ts : list CreditTransaction.doc) :
  StronglySorted newerFirst (sortByDateDesc ts)
  /\ (forall x, In x (sortByDateDesc ts) <-> In x ts)
  /\ List.length (sortByDateDesc ts) = List.length ts.
Proof.
  unfold sortByDateDesc. induction ts as [|t ts (S & I & L)]; simpl.
  - split; [constructor|]. split; [tauto|reflexivity].
  - split; [apply insertByDate_sorted; exact S|]. split.
    + intros x. rewrite insertByDate_In, I. intuition.
    + rewrite insertByDate_length, L. reflexivity.
Qed.

Lemma firstn_subset {A} (n : nat) (l : list A) (x : A) :
  In x (firstn n l) -> In x l.
Proof.
  revert n. induction l as [|y l IH]; intros [|n]; simpl; try tauto.
  intros [H|H]; [left; exact H|right; apply (IH n); exact H].
Qed.

Lemma firstn_sorted {A} (R : A -> A -> Prop) (n : nat) (l : list A) :
  StronglySorted R l -> StronglySorted R (firstn n l).
Proof.
  intros S. revert n. induction S as [|x l S IH F]; intros [|n]; simpl;
    try constructor.
  - apply IH.
  - rewrite Forall_forall in *. intros y Hy. apply F.
    apply (firstn_subset n l y). exact Hy.
Qed.

(** X13. The wallet view agrees with the ledger: in a reconciled store
    with well-typed transactions the view shows the user's wallet with the
    user's balance, today's credits lie between 0 and that balance, and
    the recent transactions are transactions of the user, the ten most
    recent at most, most recent first. *)
Theorem wallet_view_is_consistent (u : string) (now : clock) (s : store) :
  u <> "" -> reconciled s -> transactionsTyped s ->
  exists w today recent,
    fst (get_api_credits_wallet u now s) = inr (WalletView w today recent)
    /\ Wallet.user w = u
    /\ Wallet.credits w = balance u (wallets s)
    /\ 0 <= today <= Wallet.credits w
    /\ List.length recent
       = Nat.min 10 (List.length (transactionsOf u (transactions s)))
    /\ StronglySorted newerFirst recent
    /\ (forall t, In t recent ->
          In t (transactions s) /\ CreditTransaction.user t = u).
Proof.
  intros Hu R T. apply String.eqb_neq in Hu.
  exists (ensuredWallet u now (wallets s)).
  eexists. eexists. split.
  - unfold get_api_credits_wallet, tryCatch, ensureWallet, present,
      ensuredWallet. rewrite Hu. cbn [negb textOf].
    unfold bind, gets, modify, ret.
    destruct (findWallet u (wallets s)); reflexivity.
  - split; [apply ensuredWallet_user|].
    assert (C : Wallet.credits (ensuredWallet u now (wallets s))
                = balance u (wallets s)).
    { unfold ensuredWallet, balance. destruct (findWallet u (wallets s));
        reflexivity. }
    split; [exact C|]. split.
    { rewrite C, (R u). unfold transactionsOf. apply sum_filter_le; [exact T|].
      intros t H. apply andb_prop in H. destruct H as [H _].
      apply andb_prop in H. destruct H as [H _]. exact H. }
    destruct (sortByDateDesc_spec (transactionsOf u (transactions s)))
      as (S & I & L).
    unfold transactionsOf in *.
    split; [rewrite length_firstn, L; reflexivity|].
    split; [apply firstn_sorted; exact S|].
    intros t Ht. apply firstn_subset in Ht. apply I in Ht.
    apply filter_In in Ht.
    destruct Ht as [Hin E]. apply String.eqb_eq in E. split; assumption.
Qed.

Lemma wallet_view_is_consistent_witness :
  exists w today recent,
    fst (get_api_credits_wallet "a@x.com" sampleClock sampleStore)
    = inr (WalletView w today recent)
    /\ Wallet.credits w = balance "a@x.com" (wallets sampleStore)
    /\ 0 <= today <= Wallet.credits w.
Proof.
  assert (R : reconciled sampleStore)
    by (apply run_reconciled; exact emptyStore_reconciled).
  assert (T : transactionsTyped sampleStore)
    by (unfold transactionsTyped; vm_compute; repeat constructor).
  destruct (wallet_view_is_consistent "a@x.com" sampleClock sampleStore
              ltac:(discriminate) R T)
    as (w & today & recent & H & _ & C & B & _).
  exists w, today, recent. repeat split; try assumption; apply B.
Defined.

(* ================================================================== *)
(** * Totals and ranking of the admin summary *)
(* ================================================================== *)

Lemma fold_sum_from {A} (f : A -> Z) (l : list A) (k : Z) :
  fold_left (fun sum x => sum + f x) l k
  = k + fold_left (fun sum x => sum + f x) l 0.
Proof.
  revert k. induction l as [|x l IH]; intros k; simpl; [lia|].
  rewrite IH, (IH (f x)). lia.
Qed.

Lemma fold_sum_app {A} (f : A -> Z) (l r : list A) :
  fold_left (fun sum x => sum + f x) (l ++ r) 0
  = fold_left (fun sum x => sum + f x) l 0
    + fold_left (fun sum x => sum + f x) r 0.
Proof. rewrite fold_left_app, fold_sum_from. reflexivity. Qed.

Lemma fold_sum_cons {A} (f : A -> Z) (x : A) (l : list A) :
  fold_left (fun sum x => sum + f x) (x :: l) 0
  = f x + fold_left (fun sum x => sum + f x) l 0.
Proof. simpl. rewrite fold_sum_from. reflexivity. Qed.

Lemma setAddAll_extends (items set : list string) :
  exists extra,
    setAddAll items set = set ++ extra
    /\ (forall x, In x extra -> ~ In x set)
    /\ (NoDup set -> NoDup (set ++ extra)).
Proof.
  revert set. induction items as [|y items IH]; intros set; simpl.
  - exists []. rewrite app_nil_r. split; [reflexivity|].
    split; [intros x []|trivial].
  - destruct (existsb (String.eqb y) set) eqn:E.
    + apply IH.
    + destruct (IH (set ++ [y])) as (extra & H & D & N).
      assert (Hy : ~ In y set).
      { intros Hin. apply existsb_eqb_In in Hin. congruence. }
      exists (y :: extra). rewrite H, <- app_assoc. split; [reflexivity|].
      split.
      * intros x [Hx|Hx]; [subst x; exact Hy|].
        intros Hin. apply (D x Hx). apply in_or_app. left. exact Hin.
      * intros Nd. change (set ++ y :: extra) with (set ++ [y] ++ extra).
        rewrite app_assoc. apply N.
        apply NoDup_app; [exact Nd|repeat constructor; intros []|].
        intros a Ha [Hin|[]]. subst a. contradiction.
Qed.

Lemma setAddAll_fresh (items : list string) :
  NoDup items -> setAddAll items [] = items.
Proof.
  assert (G : forall set, NoDup items -> (forall x, In x items -> ~ In x set) ->
                          setAddAll items set = set ++ items).
  { induction items as [|y items IH]; intros set N D; simpl.
    - rewrite app_nil_r. reflexivity.
    - apply NoDup_cons_iff in N. destruct N as [Hy N].
      destruct (existsb (String.eqb y) set) eqn:E.
      + apply existsb_eqb_In in E. exfalso. apply (D y); [left; reflexivity|exact E].
      + rewrite IH; [rewrite <- app_assoc; reflexivity|exact N|].
        intros x Hx Hin. apply in_app_or in Hin.
        destruct Hin as [Hin|[Hin|[]]].
        * apply (D x); [right; exact Hx|exact Hin].
        * subst x. contradiction. }
  intros N. apply (G [] N). intros x _ [].
Qed.

Lemma setAddAll_app (a b set : list string) :
  setAddAll (a ++ b) set = setAddAll b (setAddAll a set).
Proof.
  revert set. induction a as [|y a IH]; intros set; simpl;
    [reflexivity|apply IH].
Qed.

Lemma findWallet_unique (ws : list Wallet.doc) (w : Wallet.doc) :
  NoDup (map Wallet.user ws) -> In w ws ->
  findWallet (Wallet.user w) ws = Some w.
Proof.
  unfold findWallet.
  induction ws as [|x ws IH]; simpl; intros N Hin; [destruct Hin|].
  apply NoDup_cons_iff in N. destruct N as [Hx N].
  destruct Hin as [E|Hin].
  - subst x. rewrite String.eqb_refl. reflexivity.
  - destruct (String.eqb (Wallet.user x) (Wallet.user w)) eqn:E.
    + apply String.eqb_eq in E. exfalso. apply Hx. rewrite E.
      apply in_map. exact Hin.
    + apply IH; assumption.
Qed.

Lemma orZero_id (x : Z) : orZero x = x.
Proof. unfold orZero. destruct (Z.eqb_spec x 0); congruence. Qed.

Lemma credits_of_wallet_users (ws : list Wallet.doc) (averages : list Average.t)
    (l : list Wallet.doc) :
  NoDup (map Wallet.user ws) -> (forall w, In w l -> In w ws) ->
  fold_left (fun sum emp => sum + Employee.credits emp)
    (map (employeeOf ws averages) (map Wallet.user l)) 0
  = sumCredits l.
Proof.
  intros N. unfold sumCredits. induction l as [|w l IH]; intros Hin.
  - reflexivity.
  - simpl map. rewrite !fold_sum_cons, IH
      by (intros x Hx; apply Hin; right; exact Hx).
    f_equal. unfold employeeOf. cbn [Employee.credits].
    rewrite (findWallet_unique ws w N (Hin w (or_introl eq_refl))).
    apply orZero_id.
Qed.

Lemma credits_of_others (ws : list Wallet.doc) (averages : list Average.t)
    (extra : list string) :
  (forall x, In x extra -> ~ In x (map Wallet.user ws)) ->
  fold_left (fun sum emp => sum + Employee.credits emp)
    (map (employeeOf ws averages) extra) 0 = 0.
Proof.
  induction extra as [|x extra IH]; intros D; [reflexivity|].
  simpl map. rewrite fold_sum_cons, IH
    by (intros y Hy; apply D; right; exact Hy).
  unfold employeeOf. cbn [Employee.credits].
  rewrite findWallet_absent by (apply D; left; reflexivity). reflexivity.
Qed.

(** X14. The totals of the admin summary: when no two wallets share a
    user, [totalCredits] is the sum of the balances of all wallets,
    [totalEmployees] counts the listed employees, and no user is listed
    twice. *)
Theorem admin_totals_add_up (ws : list Wallet.doc) (averages : list Average.t) :
  NoDup (map Wallet.user ws) ->
  let summary := summarize ws averages in
  totalCredits summary = sumCredits ws
  /\ totalEmployees summary = Z.of_nat (List.length (employees summary))
  /\ NoDup (map Employee.user (employees summary)).
Proof.
  intros N summary. unfold summary.
  assert (U : exists extra,
             setAddAll (map Wallet.user ws ++ map Average._id averages) []
             = map Wallet.user ws ++ extra
             /\ (forall x, In x extra -> ~ In x (map Wallet.user ws))
             /\ NoDup (map Wallet.user ws ++ extra)).
  { rewrite setAddAll_app, (setAddAll_fresh _ N).
    destruct (setAddAll_extends (map Average._id averages) (map Wallet.user ws))
      as (extra & H & D & Nd).
    exists extra. split; [exact H|]. split; [exact D|apply Nd; exact N]. }
  destruct U as (extra & H & D & Nd).
  split; [|split; [reflexivity|]].
  - unfold summarize. cbn [totalCredits]. rewrite H, map_app, fold_sum_app.
    rewrite (credits_of_wallet_users ws averages ws N) by trivial.
    rewrite (credits_of_others ws averages extra D). lia.
  - rewrite employees_users, H. exact Nd.
Qed.

Lemma admin_totals_add_up_witness :
  totalCredits (summarize (wallets lookedUpStore) zeroAverages)
  = sumCredits (wallets lookedUpStore).
Proof.
  apply (admin_totals_add_up (wallets lookedUpStore) zeroAverages).
  vm_compute. repeat constructor; simpl; intuition discriminate.
Defined.

Lemma insertByCredits_perm (e : Employee.t) (l : list Employee.t) :
  Permutation (insertByCredits e l) (e :: l).
Proof.
  induction l as [|x l IH]; simpl; [apply Permutation_refl|].
  destruct (Employee.credits e <? Employee.credits x).
  - eapply perm_trans; [apply perm_skip; exact IH|apply perm_swap].
  - apply Permutation_refl.
Qed.

Lemma insertByCredits_sorted (e : Employee.t) (l : list Employee.t) :
  StronglySorted richerFirst l -> StronglySorted richerFirst (insertByCredits e l).
Proof.
  intros S. induction S as [|y l S IH F]; simpl.
  - repeat constructor.
  - destruct (Employee.credits e <? Employee.credits y) eqn:E.
    + apply Z.ltb_lt in E. constructor; [exact IH|].
      apply Forall_forall. intros x Hx.
      apply (Permutation_in _ (insertByCredits_perm e l)) in Hx.
      destruct Hx as [Hx|Hx]; [subst x; unfold richerFirst; lia|].
      rewrite Forall_forall in F. apply F. exact Hx.
    + apply Z.ltb_ge in E. constructor; [constructor; assumption|].
      constructor; [exact E|].
      rewrite Forall_forall in *. intros x Hx. specialize (F x Hx).
      unfold richerFirst in *. lia.
Qed.

Lemma withRank_spec (es : list Employee.t) (k : Z) :
  map fst (withRank es k) = es
  /\ forall i e r, nth_error (withRank es k) i = Some (e, r) ->
       r = k + Z.of_nat i + 1.
Proof.
  revert k. induction es as [|x es IH]; intros k; simpl.
  - split; [reflexivity|]. intros [|i] e r H; discriminate.
  - destruct (IH (k + 1)) as [M R]. split; [rewrite M; reflexivity|].
    intros [|i] e r H; simpl in H.
    + inversion H. lia.
    + rewrite (R i e r H). lia.
Qed.

Lemma sortByCredits_perm (es : list Employee.t) :
  Permutation (fold_right insertByCredits [] es) es.
Proof.
  induction es as [|e es IH]; simpl; [constructor|].
  eapply perm_trans; [apply insertByCredits_perm|].
  apply perm_skip. exact IH.
Qed.

Lemma sortByCredits_sorted (es : list Employee.t) :
  StronglySorted richerFirst (fold_right insertByCredits [] es).
Proof.
  induction es as [|e es IH]; simpl; [constructor|].
  apply insertByCredits_sorted. exact IH.
Qed.

(** X15. The ranking of the admin summary lists every employee exactly
    once, the higher balances first, and gives the entry at position [i],
    counted from 0, the rank [i + 1]. *)
Theorem ranking_is_sorted (ws : list Wallet.doc) (averages : list Average.t) :
  let summary := summarize ws averages in
  Permutation (map fst (ranking summary)) (employees summary)
  /\ StronglySorted richerFirst (map fst (ranking summary))
  /\ forall i e r, nth_error (ranking summary) i = Some (e, r) ->
       r = Z.of_nat i + 1.
Proof.
  intros summary. unfold summary, summarize. cbn [ranking employees].
  set (es := map (employeeOf ws averages) _).
  destruct (withRank_spec (fold_right insertByCredits [] es) 0) as [M R].
  rewrite M. split; [|split].
  - apply sortByCredits_perm.
  - apply sortByCredits_sorted.
  - intros i e r H. rewrite (R i e r H). lia.
Qed.

(* ================================================================== *)
(** * The admin guard *)
(* ================================================================== *)

Lemma lower_keeps_whitespace (c : ascii) :
  isStrWhiteSpaceChar (toLowerCaseChar c) = isStrWhiteSpaceChar c.
Proof. destruct c as [[] [] [] [] [] [] [] []]; vm_compute; reflexivity. Qed.

Lemma lower_twice (c : ascii) :
  toLowerCaseChar (toLowerCaseChar c) = toLowerCaseChar c.
Proof. destruct c as [[] [] [] [] [] [] [] []]; vm_compute; reflexivity. Qed.

Lemma trimStart_lower (cs : list ascii) :
  trimStart (map toLowerCaseChar cs) = map toLowerCaseChar (trimStart cs).
Proof.
  induction cs as [|c cs IH]; [reflexivity|].
  simpl. rewrite lower_keeps_whitespace.
  destruct (isStrWhiteSpaceChar c); [exact IH|reflexivity].
Qed.

Lemma trim_lower (cs : list ascii) :
  trim (map toLowerCaseChar cs) = map toLowerCaseChar (trim cs).
Proof.
  unfold trim.
  rewrite trimStart_lower, <- map_rev, trimStart_lower, <- map_rev.
  reflexivity.
Qed.

Lemma trimStart_split (cs : list ascii) :
  exists ws, cs = ws ++ trimStart cs
             /\ forallb isStrWhiteSpaceChar ws = true
             /\ trimStart (trimStart cs) = trimStart cs.
Proof.
  induction cs as [|c cs (ws & E & W & T)].
  - exists []. repeat split.
  - simpl. destruct (isStrWhiteSpaceChar c) eqn:C.
    + exists (c :: ws). simpl. rewrite C, W. rewrite <- E. repeat split. exact T.
    + exists []. repeat split. simpl. rewrite C. reflexivity.
Qed.

Lemma trimStart_fixed_app (a b : list ascii) :
  a <> [] -> trimStart a = a -> trimStart (a ++ b) = a ++ b.
Proof.
  destruct a as [|c a]; [congruence|]. intros _. simpl.
  destruct (isStrWhiteSpaceChar c); [|reflexivity].
  intros H. exfalso.
  destruct (trimStart_split a) as (ws & E & _ & _).
  apply (f_equal (@List.length ascii)) in E.
  rewrite H in E. rewrite length_app in E. simpl in E. lia.
Qed.

Lemma trim_twice (cs : list ascii) : trim (trim cs) = trim cs.
Proof.
  unfold trim.
  destruct (trimStart_split cs) as (_ & _ & _ & Ta).
  set (a := trimStart cs) in *.
  destruct (trimStart_split (rev a)) as (ws & E & _ & Tb).
  set (b := trimStart (rev a)) in *.
  assert (F : trimStart (rev b) = rev b).
  { destruct b as [|x b'] eqn:B; [reflexivity|].
    assert (Ea : a = rev (x :: b') ++ rev ws).
    { rewrite <- rev_app_distr, <- E, rev_involutive. reflexivity. }
    destruct (rev (x :: b')) as [|y r] eqn:R.
    - reflexivity.
    - rewrite Ea in Ta. simpl in Ta. simpl.
      destruct (isStrWhiteSpaceChar y) eqn:W; [|reflexivity].
      exfalso.
      destruct (trimStart_split (r ++ rev ws)) as (ws' & E' & _ & _).
      rewrite Ta in E'. apply (f_equal (@List.length ascii)) in E'.
      rewrite !length_app in E'. simpl in E'. rewrite length_app in E'. lia. }
  rewrite F, rev_involutive, Tb. reflexivity.
Qed.

Lemma normalizeEmail_twice (e : string) :
  normalizeEmail (normalizeEmail e) = normalizeEmail e.
Proof.
  unfold normalizeEmail, toLowerCase, trimString.
  rewrite !list_ascii_of_string_of_list_ascii.
  rewrite trim_lower, trim_twice.
  rewrite map_map. f_equal. apply map_ext. intros c. apply lower_twice.
Qed.

Lemma adminEmails_entries (env : option string) (a : string) :
  In a (adminEmails env) -> a <> "" /\ normalizeEmail a = a.
Proof.
  unfold adminEmails. intros H. apply filter_In in H. destruct H as [H N].
  split.
  - intros E. subst a. discriminate.
  - apply in_map_iff in H. destruct H as (p & <- & _).
    apply normalizeEmail_twice.
Qed.

Lemma existsb_eqb_In_iff (x : string) (l : list string) :
  existsb (String.eqb x) l = true <-> In x l.
Proof.
  rewrite existsb_exists. split.
  - intros (y & Hy & E). apply String.eqb_eq in E. subst y. exact Hy.
  - intros H. exists x. split; [exact H|apply String.eqb_refl].
Qed.

(** X16. The admin summary is closed to everyone else: a request whose
    [x-admin-user] header is absent, empty, or names, once trimmed and
    lower-cased, no entry of the configured admin list is answered 403
    "Admin access required", and the store is left as it was. *)
Theorem admin_route_refuses_others (env requester : option string)
    (avg : list number -> number) (s : store) :
  (forall e, requester = Some e -> ~ In (normalizeEmail e) (adminEmails env)) ->
  admin_credits_route env requester avg s
  = (inr (Message 403 "Admin access required"), s).
Proof.
  intros H. unfold admin_credits_route, get_api_admin_credits.
  assert (A : isAdmin (adminEmails env) requester = false).
  { unfold isAdmin. destruct requester as [e|]; [|reflexivity].
    simpl textOf.
    destruct (existsb (String.eqb (normalizeEmail e)) (adminEmails env)) eqn:E.
    - apply existsb_eqb_In_iff in E. exfalso. exact (H e eq_refl E).
    - apply andb_false_r. }
  rewrite A. reflexivity.
Qed.

Lemma admin_route_refuses_others_witness :
  admin_credits_route (Some "boss@x.com") (Some "a@x.com") meanOf emptyStore
  = (inr (Message 403 "Admin access required"), emptyStore).
Proof.
  apply admin_route_refuses_others.
  intros e E. injection E as <-. vm_compute. intuition discriminate.
Defined.

(** X17. The admin check ignores the case and the surrounding white space
    of the header and of the configured list: a header is accepted exactly
    when its trimmed, lower-cased form is an entry of the list, it is
    accepted exactly when that form itself is, and every entry of the list
    is non-empty and already in that form. *)
Theorem admin_check_is_normalized (env : option string) (e : string) :
  (isAdmin (adminEmails env) (Some e) = true
   <-> In (normalizeEmail e) (adminEmails env))
  /\ isAdmin (adminEmails env) (Some e)
     = isAdmin (adminEmails env) (Some (normalizeEmail e))
  /\ (forall a, In a (adminEmails env) -> a <> "" /\ normalizeEmail a = a).
Proof.
  assert (K : forall x, isAdmin (adminEmails env) (Some x) = true
                        <-> In (normalizeEmail x) (adminEmails env)).
  { intros x. unfold isAdmin. simpl. rewrite andb_true_iff, existsb_eqb_In_iff.
    split; [tauto|]. intros H. split; [|exact H].
    destruct (String.eqb_spec x ""); [|reflexivity]. subst x.
    apply adminEmails_entries in H. destruct H as [H _].
    exfalso. apply H. reflexivity. }
  split; [apply K|]. split; [|apply adminEmails_entries].
  destruct (isAdmin (adminEmails env) (Some e)) eqn:A.
  - symmetry. apply K. rewrite normalizeEmail_twice. apply K. exact A.
  - destruct (isAdmin (adminEmails env) (Some (normalizeEmail e))) eqn:B;
      [|reflexivity].
    apply K in B. rewrite normalizeEmail_twice in B. apply K in B. congruence.
Qed.

(* ================================================================== *)
(** * Accounts *)
(* ================================================================== *)

Lemma findUser_app_new (email : string) (users : list User.doc) (u : User.doc) :
  findUser email users = None -> User.email u = email ->
  findUser email (users ++ [u]) = Some u.
Proof.
  unfold findUser. intros N E.
  induction users as [|x users IH]; simpl in *.
  - rewrite E, String.eqb_refl. reflexivity.
  - destruct (String.eqb (User.email x) email); [discriminate|]. apply IH, N.
Qed.

Lemma findUser_none_absent (email : string) (users : list User.doc) :
  findUser email users = None -> ~ In email (map User.email users).
Proof.
  unfold findUser. induction users as [|x users IH]; simpl; [tauto|].
  destruct (String.eqb_spec (User.email x) email); [discriminate|].
  intros N [E|H]; [contradiction|]. apply (IH N H).
Qed.

Lemma signup_extends (hash : string -> string -> string)
    (email password : option string) (salt : string) (users : list User.doc) :
  exists added,
    snd (post_api_signup hash email password salt users) = users ++ added
    /\ (NoDup (map User.email users) ->
        NoDup (map User.email (users ++ added))).
Proof.
  unfold post_api_signup.
  destruct (negb (present email) || negb (present password)).
  - exists []. rewrite app_nil_r. split; [reflexivity|trivial].
  - destruct (findUser (textOf email) users) eqn:F.
    + exists []. rewrite app_nil_r. split; [reflexivity|trivial].
    + eexists. split; [reflexivity|]. intros N.
      rewrite map_app. simpl. apply NoDup_app.
      * exact N.
      * repeat constructor. intros [].
      * intros a Ha [<-|[]]. apply (findUser_none_absent _ _ F Ha).
Qed.

(** X18. Signing up never touches an existing account and keeps e-mail
    addresses unique: after any sequence of signup requests the accounts
    held before are still there, first and unchanged, and no two accounts
    share an e-mail address if none did before. *)
Theorem signup_keeps_accounts (hash : string -> string -> string)
    (rs : list (option string * option string * string))
    (users : list User.doc) :
  NoDup (map User.email users) ->
  exists added,
    signupAll hash rs users = users ++ added
    /\ NoDup (map User.email (signupAll hash rs users)).
Proof.
  revert users. induction rs as [|[[email password] salt] rs IH]; intros users N.
  - exists []. simpl. rewrite app_nil_r. split; [reflexivity|exact N].
  - simpl.
    destruct (signup_extends hash email password salt users) as (a & E & K).
    rewrite E. destruct (IH (users ++ a) (K N)) as (b & E' & N').
    exists (a ++ b). rewrite app_assoc. split; assumption.
Qed.

Lemma signup_keeps_accounts_witness :
  NoDup (map User.email
           (signupAll (fun _ p => p)
              [(Some "a@x.com", Some "one", "s1");
               (Some "a@x.com", Some "two", "s2");
               (Some "b@x.com", Some "three", "s3")]
              [User.mk "c@x.com" "zero"])).
Proof.
  destruct (signup_keeps_accounts (fun _ p => p)
              [(Some "a@x.com", Some "one", "s1");
               (Some "a@x.com", Some "two", "s2");
               (Some "b@x.com", Some "three", "s3")]
              [User.mk "c@x.com" "zero"]) as (added & _ & N).
  - repeat constructor. intros [].
  - exact N.
Defined.

(** X19. Signup and signin fit together: when the password check accepts
    a password against every hash made of it, a signup with a new e-mail
    address and a password succeeds, the same e-mail address and password
    then sign in, a password the check rejects against the stored hash is
    answered 401, and a second signup under that e-mail address is
    answered 400 and changes nothing. *)
Theorem signup_then_signin (hash : string -> string -> string)
    (compare : string -> string -> bool)
    (email password salt : string) (users : list User.doc) :
  (forall salt p, compare p (hash salt p) = true) ->
  email <> "" -> password <> "" ->
  findUser email users = None ->
  let users' := snd (post_api_signup hash (Some email) (Some password) salt users) in
  fst (post_api_signup hash (Some email) (Some password) salt users)
    = AccountOk "Signup successful" email
  /\ users' = users ++ [User.mk email (hash salt password)]
  /\ post_api_signin compare (Some email) (Some password) users'
     = AccountOk "Signin successful" email
  /\ (forall other, other <> "" ->
        compare other (hash salt password) = false ->
        post_api_signin compare (Some email) (Some other) users'
        = AccountMessage 401 "Invalid credentials")
  /\ (forall password2 salt2,
        post_api_signup hash (Some email) password2 salt2 users'
        = (AccountMessage 400
             (if present password2 then "User already exists"
              else "Email and password required"), users')).
Proof.
  intros C He Hp F users'.
  assert (Pe : present (Some email) = true).
  { simpl. destruct (String.eqb_spec email ""); [contradiction|reflexivity]. }
  assert (Pp : forall p, p <> "" -> present (Some p) = true).
  { intros p H. simpl. destruct (String.eqb_spec p ""); [contradiction|reflexivity]. }
  assert (U : post_api_signup hash (Some email) (Some password) salt users
              = (AccountOk "Signup successful" email,
                 users ++ [User.mk email (hash salt password)])).
  { unfold post_api_signup. rewrite Pe, (Pp password Hp). simpl.
    rewrite F. reflexivity. }
  unfold users'. rewrite U. simpl fst. simpl snd.
  assert (G : findUser email (users ++ [User.mk email (hash salt password)])
              = Some (User.mk email (hash salt password))).
  { apply findUser_app_new; [exact F|reflexivity]. }
  split; [reflexivity|]. split; [reflexivity|]. split; [|split].
  - unfold post_api_signin. rewrite Pe, (Pp password Hp). simpl.
    rewrite G. simpl. rewrite C. reflexivity.
  - intros other Ho Hc. unfold post_api_signin. rewrite Pe, (Pp other Ho).
    simpl. rewrite G. simpl. rewrite Hc. reflexivity.
  - intros password2 salt2. unfold post_api_signup. rewrite Pe.
    destruct (present password2); simpl; [|reflexivity].
    rewrite G. reflexivity.
Qed.

Lemma signup_then_signin_witness :
  post_api_signin String.eqb (Some "a@x.com") (Some "secret")
    (snd (post_api_signup (fun _ p => p) (Some "a@x.com") (Some "secret")
            "salt" []))
  = AccountOk "Signin successful" "a@x.com".
Proof.
  apply (signup_then_signin (fun _ p => p) String.eqb "a@x.com" "secret"
           "salt" []).
  - intros _ p. apply String.eqb_refl.
  - discriminate.
  - discriminate.
  - reflexivity.
Defined.

(* ================================================================== *)
(** * Repeating the manual award *)
(* ================================================================== *)

(** X20. The manual award route has no one-per-day rule: each accepted
    call for the same user, score and date adds the same credits again,
    the improvement bonus included, so that after [k] calls the balance
    has grown by [k] times the award, which is at least 1; the footprints
    are left as they were. *)
Theorem manual_award_is_repeatable (u d : string) (n : number)
    (nows : list clock) (s : store) :
  u <> "" -> d <> "" -> isNaN n = false ->
  let r := PostCreditsEarn
             {| earnUser := Some u; earnScore := VNum n; earnDate := Some d |} in
  let each := baseCreditsForScore n
              + bonusCreditsFor n (previousScoreIn (footprints s) u d) in
  let s' := run (map (fun now => (r, now)) nows) s in
  balance u (wallets s')
  = balance u (wallets s) + Z.of_nat (List.length nows) * each
  /\ footprints s' = footprints s
  /\ 1 <= each.
Proof.
  intros Hu Hd Hn r each s'. unfold s', each, r. clear s' each r.
  assert (step : forall now rest t,
            run ((PostCreditsEarn
                    {| earnUser := Some u; earnScore := VNum n;
                       earnDate := Some d |}, now) :: rest) t
            = run rest (awardedStore u (VNum n) (Some d) now t)).
  { intros now rest t. cbn [run handle].
    rewrite (earn_awarded u n (Some d) now t Hu), Hn. reflexivity. }
  split; [|split].
  - revert s. induction nows as [|now nows IH]; intros s.
    + simpl. lia.
    + cbn [map]. rewrite step, IH. unfold awardedStore, summaryOf. cbn [wallets footprints totalAwarded].
      rewrite balance_credited_same. unfold dateOrToday.
      apply String.eqb_neq in Hd. rewrite Hd.
      change (ToNumber (VNum n)) with n.
      cbn [List.length]. rewrite (Nat2Z.inj_succ (List.length nows)). lia.
  - revert s. induction nows as [|now nows IH]; intros s.
    + reflexivity.
    + cbn [map]. rewrite step, IH. reflexivity.
  - destruct (base_values n) as [B|[B|B]],
      (bonus_values n (previousScoreIn (footprints s) u d)) as [C|C];
      rewrite B, C; lia.
Qed.

Lemma manual_award_is_repeatable_witness :
  balance "a@x.com"
    (wallets (run (map (fun now =>
                          (PostCreditsEarn
                             {| earnUser := Some "a@x.com";
                                earnScore := VNum (ofZ 4);
                                earnDate := Some "2024-01-05" |}, now))
                       [sampleClock; sampleClock; sampleClock])
                  sampleStore))
  = balance "a@x.com" (wallets sampleStore)
    + Z.of_nat (List.length [sampleClock; sampleClock; sampleClock])
      * (baseCreditsForScore (ofZ 4)
         + bonusCreditsFor (ofZ 4)
             (previousScoreIn (footprints sampleStore) "a@x.com" "2024-01-05")).
Proof.
  apply (manual_award_is_repeatable "a@x.com" "2024-01-05" (ofZ 4)
           [sampleClock; sampleClock; sampleClock] sampleStore).
  - discriminate.
  - discriminate.
  - vm_compute. reflexivity.
Defined.

(** The witness of X20 in numbers: three manual awards of a score of 4,
    below the 6.31 of the day before, add 3 * (5 + 2) credits to the 5
    held. *)
Example three_manual_awards :
  balance "a@x.com"
    (wallets (run (map (fun now =>
                          (PostCreditsEarn
                             {| earnUser := Some "a@x.com";
                                earnScore := VNum (ofZ 4);
                                earnDate := Some "2024-01-05" |}, now))
                       [sampleClock; sampleClock; sampleClock])
                  sampleStore)) = 26.
Proof. vm_compute. reflexivity. Qed.
